(** * Investment simulator: the calculation engine of [src/App.vue]

    A shallow embedding of the four computed properties of the component
    ([calculateData], [totalInvested], [taxInfo], [etfBenchmarks]) and the
    properties of them that the specification states; then of the actions
    of the component ([toggleCustomDuration], [addTransaction],
    [removeTransaction], [addPhase], [removePhase]), of the watcher of
    [durationYears] and of [loadFromLocal], with the properties that the
    code of these shows.

    JavaScript numbers are kept behind an interface, [JSNumber]: the engine
    is written once over any carrier that offers the operators the source
    uses.  Most properties are proved for every carrier, so they hold for
    the doubles of the program.  [Double.number] is that carrier: binary64
    with its rounding, on which concrete results are computed.
    [Ideal.number] is exact arithmetic (reals, the two infinities and NaN:
    no rounding, no overflow, no signed zero); it is used only where
    rounding does not bear on the statement.

    Years ([startYear], [endYear], [durationYears], the loop counters) are
    integers, as the data model of the specification has them; a count of
    years or months is computed as an integer and then used as a number.
    A string made by [toFixed] is kept as the number and the digits it was
    made from.  The store is modelled from the parsed object on, not as
    JSON text; the rest of the rendering and the PDF export are left out. *)

From Stdlib Require Import ZArith QArith Reals Lra Lia.
From Stdlib Require PrimFloat SpecFloat FloatOps.
From stdpp Require Import base list strings gmap.

Local Open Scope Z_scope.

(** ** Numbers of the host language *)

Class JSNumber (N : Type) : Type := {
  num : Q -> N;                (* a numeric literal *)
  add : N -> N -> N;           (* x + y *)
  sub : N -> N -> N;           (* x - y *)
  mul : N -> N -> N;           (* x * y *)
  div : N -> N -> N;           (* x / y *)
  gt : N -> N -> bool;         (* x > y *)
  Math_pow : N -> N -> N;
  Math_round : N -> N;
  Math_max : N -> N -> N
}.

Declare Scope js_scope.
Delimit Scope js_scope with js.
Infix "+" := add : js_scope.
Infix "-" := sub : js_scope.
Infix "*" := mul : js_scope.
Infix "/" := div : js_scope.
Infix ">?" := gt : js_scope.

(** An integer used as a number. *)
Definition int {N} `{JSNumber N} (z : Z) : N := num (inject_Z z).

(** A string of the program: a literal, or the result of
    [x.toFixed(fractionDigits)], kept as the number it renders. *)
Inductive Text (N : Type) : Type :=
| Lit (s : string)
| toFixed (x : N) (fractionDigits : nat).
Arguments Lit {N} s.
Arguments toFixed {N} x fractionDigits.

(** ** Data model *)

Module YieldPhase.
Record t (N : Type) : Type := mk {
  id : Z;
  startYear : Z;
  endYear : Z;
  rate : N;
  customDuration : bool
}.
Arguments mk {N}.
Arguments id {N}.
Arguments startYear {N}.
Arguments endYear {N}.
Arguments rate {N}.
Arguments customDuration {N}.
End YieldPhase.

Module Transaction.
Record t (N : Type) : Type := mk {
  id : Z;
  name : string;
  amount : N;
  type : string;
  startYear : Z;
  endYear : Z;
  customDuration : bool
}.
Arguments mk {N}.
Arguments id {N}.
Arguments name {N}.
Arguments amount {N}.
Arguments type {N}.
Arguments startYear {N}.
Arguments endYear {N}.
Arguments customDuration {N}.
End Transaction.

(** The reactive state of the component: what every computed property
    reads. *)
Record State (N : Type) : Type := mkState {
  initialCapital : N;
  durationYears : Z;
  reinvestGains : bool;
  yieldPhases : list (YieldPhase.t N);
  transactions : list (Transaction.t N)
}.
Arguments mkState {N}.
Arguments initialCapital {N}.
Arguments durationYears {N}.
Arguments reinvestGains {N}.
Arguments yieldPhases {N}.
Arguments transactions {N}.

(** One entry of [calculateData]. *)
Record YearResult (N : Type) : Type := mkYearResult {
  year : Z;
  balance : N;
  rate : N;
  deposits : N;
  returns : N
}.
Arguments mkYearResult {N}.
Arguments year {N}.
Arguments balance {N}.
Arguments rate {N}.
Arguments deposits {N}.
Arguments returns {N}.

(** The variables of the two loops of [calculateData]. *)
Record Acc (N : Type) : Type := mkAcc {
  currentBalance : N;
  totalGains : N;
  yearDeposits : N;
  yearReturns : N
}.
Arguments mkAcc {N}.
Arguments currentBalance {N}.
Arguments totalGains {N}.
Arguments yearDeposits {N}.
Arguments yearReturns {N}.

(** ** calculateData *)

Section CalculateData.
Context {N : Type} `{JSNumber N}.

Definition isMonthly (t : Transaction.t N) : bool :=
  String.eqb (Transaction.type t) "monthly".

Definition isOnce (t : Transaction.t N) : bool :=
  String.eqb (Transaction.type t) "once".

(** [year >= p.startYear && year <= p.endYear] *)
Definition covers (y : Z) (p : YieldPhase.t N) : bool :=
  (y >=? YieldPhase.startYear p) && (y <=? YieldPhase.endYear p).

Definition matchingPhases (s : State N) (y : Z) : list (YieldPhase.t N) :=
  List.filter (covers y) (yieldPhases s).

(** [phase.rate], where [phase] is the last matching phase or
    [{ rate: 0 }]. *)
Definition phaseRate (s : State N) (y : Z) : N :=
  match last (matchingPhases s y) with
  | Some p => YieldPhase.rate p
  | None => int 0
  end.

Definition monthlyRate (s : State N) (y : Z) : N :=
  let annualRate := (phaseRate s y / int 100)%js in
  (Math_pow (int 1 + annualRate) (int 1 / int 12) - int 1)%js.

Definition effectiveEnd (dur : Z) (t : Transaction.t N) : Z :=
  if negb (Transaction.customDuration t) && isMonthly t
  then dur else Transaction.endYear t.

Definition isActive (dur y : Z) (t : Transaction.t N) : bool :=
  (y >=? Transaction.startYear t)
  && (y <=? (if isMonthly t then effectiveEnd dur t
             else Transaction.startYear t)).

(** The body of [transactions.forEach], on the two variables it writes. *)
Definition applyTransaction (dur y month : Z) (st : N * N)
    (t : Transaction.t N) : N * N :=
  let '(bal, dep) := st in
  if isActive dur y t then
    if isMonthly t then
      ((bal + Transaction.amount t)%js, (dep + Transaction.amount t)%js)
    else if isOnce t && (month =? 1) then
      ((bal + Transaction.amount t)%js, (dep + Transaction.amount t)%js)
    else st
  else st.

Definition applyTransactions (s : State N) (y month : Z) (st : N * N)
    : N * N :=
  fold_left (applyTransaction (durationYears s) y month) (transactions s) st.

(** The body of the month loop. *)
Definition monthStep (s : State N) (y : Z) (a : Acc N) (month : Z) : Acc N :=
  let '(bal, dep) :=
    applyTransactions s y month (currentBalance a, yearDeposits a) in
  let monthlyGain := (bal * monthlyRate s y)%js in
  {| currentBalance := if reinvestGains s then (bal + monthlyGain)%js else bal;
     totalGains := (totalGains a + monthlyGain)%js;
     yearDeposits := dep;
     yearReturns := (yearReturns a + monthlyGain)%js |}.

(** [for (let month = 1; month <= 12; month++)] *)
Definition months : list Z := [1; 2; 3; 4; 5; 6; 7; 8; 9; 10; 11; 12].

(** The month loop of one year, entered with the balance and the total
    gains the year before left. *)
Definition yearAcc (s : State N) (y : Z) (bal tg : N) : Acc N :=
  fold_left (monthStep s y) months
    {| currentBalance := bal; totalGains := tg;
       yearDeposits := int 0; yearReturns := int 0 |}.

(** The object pushed at the end of a year. *)
Definition yearResult (s : State N) (y : Z) (a : Acc N) : YearResult N :=
  {| year := y;
     balance := Math_round (if reinvestGains s then currentBalance a
                            else (currentBalance a + totalGains a)%js);
     rate := phaseRate s y;
     deposits := Math_round (yearDeposits a);
     returns := Math_round (yearReturns a) |}.

(** [for (let year = ...; year <= durationYears; year++)], with [n] the
    number of years still to run. *)
Fixpoint yearLoop (s : State N) (n : nat) (y : Z) (bal tg : N)
    : list (YearResult N) :=
  match n with
  | O => []
  | S n' =>
      let a := yearAcc s y bal tg in
      yearResult s y a :: yearLoop s n' (y + 1) (currentBalance a) (totalGains a)
  end.

Definition calculateData (s : State N) : list (YearResult N) :=
  yearLoop s (Z.to_nat (durationYears s)) 1 (initialCapital s) (int 0).

End CalculateData.

(** ** totalInvested and taxInfo *)

Record TaxInfo (N : Type) : Type := mkTaxInfo {
  gains : N;
  tax : N;
  afterTax : N;
  inTodaysMoney : N;
  effectiveRate : Text N
}.
Arguments mkTaxInfo {N}.
Arguments gains {N}.
Arguments tax {N}.
Arguments afterTax {N}.
Arguments inTodaysMoney {N}.
Arguments effectiveRate {N}.

Section DerivedMetrics.
Context {N : Type} `{JSNumber N}.

(** How often [totalInvested] counts a transaction. *)
Definition occurrences (dur : Z) (t : Transaction.t N) : Z :=
  if isMonthly t
  then (effectiveEnd dur t - Transaction.startYear t + 1) * 12
  else 1.

(** The callback of [transactions.reduce]. *)
Definition investedStep (dur : Z) (acc : N) (t : Transaction.t N) : N :=
  (acc + Transaction.amount t * int (occurrences dur t))%js.

Definition totalInvested (s : State N) : N :=
  (initialCapital s
   + fold_left (investedStep (durationYears s)) (transactions s) (int 0))%js.

(** The body of [taxInfo] once [finalBalance] has been read. *)
Definition taxOn (finalBalance invested : N) (dur : Z) : TaxInfo N :=
  let gains := Math_max (int 0) (finalBalance - invested)%js in
  let teilfreistellung := num (30 # 100) in
  let taxableGains := (gains * (int 1 - teilfreistellung))%js in
  let freibetrag := int 1000 in
  let taxableAfterFreibetrag := Math_max (int 0) (taxableGains - freibetrag)%js in
  let taxRate := num (26375 # 100000) in
  let tax := Math_round (taxableAfterFreibetrag * taxRate)%js in
  let afterTax := (finalBalance - tax)%js in
  let inflationFactor := Math_pow (num (102 # 100)) (int dur) in
  let inTodaysMoney :=
    Math_round ((if (tax >? int 0)%js then afterTax else finalBalance)
                / inflationFactor)%js in
  {| gains := gains; tax := tax; afterTax := afterTax;
     inTodaysMoney := inTodaysMoney;
     effectiveRate := if (gains >? int 0)%js
                      then toFixed (tax / gains * int 100)%js 1
                      else Lit "0.0" |}.

(** [None] is the TypeError of reading [.balance] of [undefined], when
    [calculateData] is empty. *)
Definition taxInfo (s : State N) : option (TaxInfo N) :=
  match last (calculateData s) with
  | Some d => Some (taxOn (balance d) (totalInvested s) (durationYears s))
  | None => None
  end.

End DerivedMetrics.

(** ** etfBenchmarks *)

Module Etf.
Record t (N : Type) : Type := mk {
  name : string;
  ticker : string;
  isin : string;
  ter : N;
  inception : Z;
  returns : gmap Z N
}.
Arguments mk {N}.
Arguments name {N}.
Arguments ticker {N}.
Arguments isin {N}.
Arguments ter {N}.
Arguments inception {N}.
Arguments returns {N}.
End Etf.

Record Benchmark (N : Type) : Type := mkBenchmark {
  etf : Etf.t N;                     (* ...etf *)
  cagr : option (Text N);
  totalReturn : Text N;
  yearsAvailable : nat;
  yearsRequested : Z;
  fromYear : option Z;
  toYear : option Z
}.
Arguments mkBenchmark {N}.
Arguments etf {N}.
Arguments cagr {N}.
Arguments totalReturn {N}.
Arguments yearsAvailable {N}.
Arguments yearsRequested {N}.
Arguments fromYear {N}.
Arguments toYear {N}.

Section Benchmarks.
Context {N : Type} `{JSNumber N}.

Definition etfData : list (Etf.t N) :=
  let r (whole tenths : Z) : N := num ((whole * 10 + tenths) # 10) in
  let m (whole tenths : Z) : N := num ((- (whole * 10 + tenths)) # 10) in
  [ {| Etf.name := "iShares S&P 500"; Etf.ticker := "IUSA"; Etf.isin := "IE0031442068";
       Etf.ter := num (7 # 100); Etf.inception := 2002;
       Etf.returns := list_to_map
         [ (2003, r 5 1); (2004, r 3 6); (2005, r 25 2); (2006, r 3 3);
           (2007, m 5 7); (2008, m 38 4); (2009, r 23 4); (2010, r 22 3);
           (2011, r 4 2); (2012, r 14 3); (2013, r 27 4); (2014, r 28 7);
           (2015, r 12 2); (2016, r 14 4); (2017, r 6 4); (2018, r 0 0);
           (2019, r 33 8); (2020, r 8 5); (2021, r 37 9); (2022, m 13 3);
           (2023, r 21 6); (2024, r 32 6); (2025, r 4 0) ] |};
    {| Etf.name := "iShares MSCI World"; Etf.ticker := "IQQW"; Etf.isin := "IE00B0M62Q58";
       Etf.ter := num (50 # 100); Etf.inception := 2005;
       Etf.returns := list_to_map
         [ (2006, r 7 4); (2007, m 1 7); (2008, m 37 6); (2009, r 26 0);
           (2010, r 19 5); (2011, m 2 4); (2012, r 14 0); (2013, r 21 2);
           (2014, r 19 5); (2015, r 10 4); (2016, r 10 7); (2017, r 7 5);
           (2018, m 4 1); (2019, r 30 0); (2020, r 6 3); (2021, r 31 1);
           (2022, m 13 2); (2023, r 19 2); (2024, r 25 9); (2025, r 6 8) ] |};
    {| Etf.name := "SPDR MSCI ACWI IMI"; Etf.ticker := "SPYI"; Etf.isin := "IE00B3YLTY66";
       Etf.ter := num (17 # 100); Etf.inception := 2011;
       Etf.returns := list_to_map
         [ (2012, r 14 1); (2013, r 17 5); (2014, r 18 6); (2015, r 8 8);
           (2016, r 11 4); (2017, r 8 9); (2018, m 4 9); (2019, r 28 9);
           (2020, r 6 7); (2021, r 28 8); (2022, m 12 4); (2023, r 16 9);
           (2024, r 23 5); (2025, r 8 1) ] |} ].

(** [for (let y = ...; y <= endYear; y++)], with [n] the number of years
    still to visit; [years] and [cumulative] are the loop's variables. *)
Fixpoint walk (table : gmap Z N) (n : nat) (y : Z) (years : list Z)
    (cumulative : N) : list Z * N :=
  match n with
  | O => (years, cumulative)
  | S n' =>
      match table !! y with
      | Some r =>
          walk table n' (y + 1) (years ++ [y])
               (cumulative * (int 1 + r / int 100))%js
      | None => walk table n' (y + 1) years cumulative
      end
  end.

Definition endYear : Z := 2025.
Definition startYear (dur : Z) : Z := endYear - dur + 1.

Definition window (table : gmap Z N) (dur : Z) : list Z * N :=
  walk table (Z.to_nat (endYear - startYear dur + 1)) (startYear dur) [] (int 1).

(** The local [cagr], before it is rendered. *)
Definition cagrOf (years : list Z) (cumulative : N) : option N :=
  let n := length years in
  if (0 <? n)%nat
  then Some ((Math_pow cumulative (int 1 / int (Z.of_nat n)) - int 1) * int 100)%js
  else None.

Definition benchmark (dur : Z) (e : Etf.t N) : Benchmark N :=
  let '(years, cumulative) := window (Etf.returns e) dur in
  let n := length years in
  let cagr := cagrOf years cumulative in
  let totalReturn := ((cumulative - int 1) * int 100)%js in
  {| etf := e;
     cagr := match cagr with Some c => Some (toFixed c 1) | None => None end;
     totalReturn := toFixed totalReturn 0;
     yearsAvailable := n;
     yearsRequested := dur;
     fromYear := if (0 <? length years)%nat then years !! 0%nat else None;
     toYear := if (0 <? length years)%nat then last years else None |}.

Definition etfBenchmarks (s : State N) : list (Benchmark N) :=
  map (benchmark (durationYears s)) etfData.

End Benchmarks.

(** ** Exact numbers

    A number is a real, an infinity or NaN.  The operators follow
    ECMAScript's [Number::add], [Number::multiply], [Number::divide],
    [Number::exponentiate], [Math.round] and [Math.max] with every finite
    result exact; the one zero stands for [+0].  This is not the
    arithmetic of the program, which rounds every result to a double (see
    [Double] below) and takes a decimal literal as the nearest double: the
    tax on gains of 42000 is 7491 here and 7490 in the program.  The
    carrier serves for statements that rounding leaves as they are: NaN
    from a negative base, the order of two taxes, and the default plan,
    whose two recurrences end 698 apart. *)

Module Ideal.

Inductive number : Type :=
| Fin (x : R)
| PosInf
| NegInf
| NaN.

Definition Rltb (x y : R) : bool := if Rlt_dec x y then true else false.
Definition Reqb (x y : R) : bool := if Req_dec_T x y then true else false.

Definition isInteger (x : R) : bool := Reqb (IZR (Int_part x)) x.
Definition isOddInteger (x : R) : bool := isInteger x && Z.odd (Int_part x).

Definition neg (a : number) : number :=
  match a with
  | Fin x => Fin (- x)
  | PosInf => NegInf
  | NegInf => PosInf
  | NaN => NaN
  end.

Definition add (a b : number) : number :=
  match a, b with
  | NaN, _ | _, NaN => NaN
  | Fin x, Fin y => Fin (x + y)
  | PosInf, NegInf | NegInf, PosInf => NaN
  | PosInf, _ | _, PosInf => PosInf
  | NegInf, _ | _, NegInf => NegInf
  end.

Definition sub (a b : number) : number :=
  match a, b with
  | Fin x, Fin y => Fin (x - y)
  | _, _ => add a (neg b)
  end.

(** An infinity of the sign of [x], for [x <> 0]. *)
Definition infOfSign (x : R) : number :=
  if Rltb 0 x then PosInf else NegInf.

Definition mul (a b : number) : number :=
  match a, b with
  | NaN, _ | _, NaN => NaN
  | Fin x, Fin y => Fin (x * y)
  | PosInf, Fin x | Fin x, PosInf =>
      if Reqb x 0 then NaN else infOfSign x
  | NegInf, Fin x | Fin x, NegInf =>
      if Reqb x 0 then NaN else infOfSign (- x)
  | PosInf, PosInf | NegInf, NegInf => PosInf
  | PosInf, NegInf | NegInf, PosInf => NegInf
  end.

Definition div (a b : number) : number :=
  match a, b with
  | NaN, _ | _, NaN => NaN
  | Fin x, Fin y =>
      if Reqb y 0 then (if Reqb x 0 then NaN else infOfSign x)
      else Fin (x / y)
  | Fin _, (PosInf | NegInf) => Fin 0
  | PosInf, Fin y => if Rltb y 0 then NegInf else PosInf
  | NegInf, Fin y => if Rltb y 0 then PosInf else NegInf
  | (PosInf | NegInf), (PosInf | NegInf) => NaN
  end.

Definition gt (a b : number) : bool :=
  match a, b with
  | NaN, _ | _, NaN => false
  | Fin x, Fin y => Rltb y x
  | PosInf, PosInf => false
  | PosInf, _ => true
  | NegInf, _ => false
  | Fin _, PosInf => false
  | Fin _, NegInf => true
  end.

Definition Math_max (a b : number) : number :=
  match a, b with
  | NaN, _ | _, NaN => NaN
  | _, _ => if gt b a then b else a
  end.

(** The nearest integer, ties towards [+∞]. *)
Definition Math_round (a : number) : number :=
  match a with
  | Fin x => Fin (IZR (Int_part (x + / 2)))
  | _ => a
  end.

(** [base ** exponent] for a finite, non-zero exponent. *)
Definition powFin (b : number) (e : R) : number :=
  match b with
  | NaN => NaN
  | PosInf => if Rltb 0 e then PosInf else Fin 0
  | NegInf =>
      if Rltb 0 e then (if isOddInteger e then NegInf else PosInf)
      else Fin 0
  | Fin x =>
      if Reqb x 0 then (if Rltb 0 e then Fin 0 else PosInf)
      else if Rltb 0 x then Fin (Rpower x e)
      else if isInteger e then Fin (powerRZ x (Int_part e))
      else NaN
  end.

(** [base ** exponent] for an infinite exponent; [up] tells [+∞]. *)
Definition powInf (b : number) (up : bool) : number :=
  match b with
  | NaN => NaN
  | PosInf | NegInf => if up then PosInf else Fin 0
  | Fin x =>
      if Reqb (Rabs x) 1 then NaN
      else if Bool.eqb (Rltb 1 (Rabs x)) up then PosInf else Fin 0
  end.

Definition Math_pow (b e : number) : number :=
  match e with
  | NaN => NaN
  | Fin y => if Reqb y 0 then Fin 1 else powFin b y
  | PosInf => powInf b true
  | NegInf => powInf b false
  end.

#[global] Instance number_JSNumber : JSNumber number :=
  Build_JSNumber number (fun q => Fin (Q2R q))
    add sub mul div gt Math_pow Math_round Math_max.

Definition isFinite (a : number) : Prop := exists x, a = Fin x.

End Ideal.

(** ** Double-precision numbers

    The numbers of the program: IEEE 754 binary64, as the kernel's
    primitive floats.  [+], [-], [*] and [/] are the correctly rounded
    operations; a decimal literal is the double nearest to it; [Math.round]
    and [Math.max] follow ECMAScript.  ECMAScript leaves the accuracy of
    [Math.pow] to the implementation, so the carrier takes it as a
    parameter. *)

Module Double.

Definition number : Type := PrimFloat.float.

(** The double nearest to an integer. *)
Definition ofZ (z : Z) : number :=
  FloatOps.SF2Prim
    (SpecFloat.binary_normalize FloatOps.prec FloatOps.emax z 0 false).

(** The double nearest to [a / b], for [a] and [b] that are doubles
    themselves (up to [2^53]): the literals of the source. *)
Definition num (q : Q) : number :=
  PrimFloat.div (ofZ (Qnum q)) (ofZ (Zpos (Qden q))).

Definition gt (a b : number) : bool := PrimFloat.ltb b a.

(** [Math.round]: the nearest integer, ties towards [+∞]; [-0] for a
    negative number that rounds to zero. *)
Definition Math_round (a : number) : number :=
  match FloatOps.Prim2SF a with
  | SpecFloat.S754_finite sign m (Zneg k) =>
      let scale := Z.pow_pos 2 k in
      let n := ((if sign then Zneg m else Zpos m) * 2 + scale) / (2 * scale) in
      if n =? 0
      then (if sign then PrimFloat.opp PrimFloat.zero else PrimFloat.zero)
      else ofZ n
  | _ => a
  end.

(** [Math.max] of two numbers; [+0] is larger than [-0]. *)
Definition Math_max (a b : number) : number :=
  if PrimFloat.is_nan a || PrimFloat.is_nan b then PrimFloat.nan
  else if PrimFloat.ltb a b then b
  else if PrimFloat.ltb b a then a
  else if PrimFloat.get_sign a then b else a.

Definition JS (Math_pow : number -> number -> number) : JSNumber number :=
  Build_JSNumber number num PrimFloat.add PrimFloat.sub PrimFloat.mul
    PrimFloat.div gt Math_pow Math_round Math_max.

End Double.

(** ** Reference definitions

    What the statements below compare the engine with. *)

Section Reference.
Context {N : Type} `{JSNumber N}.

(** The balance and the total gains with which year [n + 1] is entered. *)
Fixpoint stateAfter (s : State N) (n : nat) : N * N :=
  match n with
  | O => (initialCapital s, int 0)
  | S n' =>
      let a := yearAcc s (Z.of_nat n) (stateAfter s n').1 (stateAfter s n').2 in
      (currentBalance a, totalGains a)
  end.

(** The entry of year [n + 1], from the state the year is entered with. *)
Definition resultOf (s : State N) (n : nat) : YearResult N :=
  yearResult s (Z.of_nat (S n))
    (yearAcc s (Z.of_nat (S n)) (stateAfter s n).1 (stateAfter s n).2).

(** The state with another list of transactions. *)
Definition withTransactions (s : State N) (ts : list (Transaction.t N))
    : State N :=
  {| initialCapital := initialCapital s;
     durationYears := durationYears s;
     reinvestGains := reinvestGains s;
     yieldPhases := yieldPhases s;
     transactions := ts |}.

(** *** Principal and gains, month by month *)

(** A transaction applies in month [month] of year [y]. *)
Definition applies (dur y month : Z) (t : Transaction.t N) : bool :=
  isActive dur y t && (isMonthly t || (isOnce t && (month =? 1))).

(** The balance after the transactions of one month, gains left out. *)
Definition principalMonth (s : State N) (y : Z) (bal : N) (month : Z) : N :=
  fold_left
    (fun b t => if applies (durationYears s) y month t
                then (b + Transaction.amount t)%js else b)
    (transactions s) bal.

Definition principalYear (s : State N) (y : Z) (bal : N) : N :=
  fold_left (principalMonth s y) months bal.

(** The principal-only balance after [n] years. *)
Fixpoint principalAfter (s : State N) (n : nat) : N :=
  match n with
  | O => initialCapital s
  | S n' => principalYear s (Z.of_nat n) (principalAfter s n')
  end.

(** The gains of the months [ms] of year [y] on the principal alone. *)
Fixpoint principalGainsOf (s : State N) (y : Z) (ms : list Z) (bal : N)
    : list N :=
  match ms with
  | [] => []
  | m :: ms' =>
      let b := principalMonth s y bal m in
      (b * monthlyRate s y)%js :: principalGainsOf s y ms' b
  end.

(** Every monthly gain of years [1..n], oldest first. *)
Fixpoint principalGains (s : State N) (n : nat) : list N :=
  match n with
  | O => []
  | S n' =>
      principalGains s n'
      ++ principalGainsOf s (Z.of_nat n) months (principalAfter s n')
  end.

Definition sumOf (l : list N) : N := fold_left add l (int 0).

(** One month with the gain added to the balance at once. *)
Definition compoundMonth (s : State N) (y : Z) (bal : N) (month : Z) : N :=
  let b := principalMonth s y bal month in
  (b + b * monthlyRate s y)%js.

Fixpoint compoundAfter (s : State N) (n : nat) : N :=
  match n with
  | O => initialCapital s
  | S n' => fold_left (compoundMonth s (Z.of_nat n)) months (compoundAfter s n')
  end.

(** *** The default plan *)

Definition defaultState : State N :=
  {| initialCapital := int 30000;
     durationYears := 15;
     reinvestGains := true;
     yieldPhases :=
       [ YieldPhase.mk 1 1 15 (int 6) false ];
     transactions :=
       [ Transaction.mk 1 "Savings Plan" (int 500) "monthly" 1 15 false ] |}.

(** [1.06^(1/12) - 1] *)
Definition r_m : N :=
  (Math_pow (num (106 # 100)) (int 1 / int 12) - int 1)%js.

(** [balance_m = balance_{m-1} (1 + r_m) + deposit] *)
Definition depositAfterGain (b : N) : N :=
  (b * (int 1 + r_m) + int 500)%js.

(** [balance_m = (balance_{m-1} + deposit) (1 + r_m)] *)
Definition depositBeforeGain (b : N) : N :=
  ((b + int 500) * (int 1 + r_m))%js.

(** *** Benchmark window *)

Definition present (table : gmap Z N) (y : Z) : bool :=
  match table !! y with Some _ => true | None => false end.

(** The years of the window that the table has, ascending. *)
Definition presentYears (table : gmap Z N) (dur : Z) : list Z :=
  List.filter (present table) (seqZ (2025 - dur + 1) dur).

Definition compound (table : gmap Z N) (years : list Z) : N :=
  fold_left
    (fun c y => match table !! y with
                | Some r => (c * (int 1 + r / int 100))%js
                | None => c
                end)
    years (int 1).

(** A table with a hole in the middle of a three-year window. *)
Definition holedEtf : Etf.t N :=
  {| Etf.name := "Holed Index"; Etf.ticker := "HOLE"; Etf.isin := "XX0000000000";
     Etf.ter := int 0; Etf.inception := 2022;
     Etf.returns := list_to_map [ (2023, int 10); (2025, int 10) ] |}.

(** *** Sample plans *)

(** One year, no phase, no transaction. *)
Definition plainState : State N :=
  {| initialCapital := int 30000;
     durationYears := 1;
     reinvestGains := true;
     yieldPhases := [];
     transactions := [] |}.

(** Ten years; a second phase overrides the first in year 5. *)
Definition overlapState : State N :=
  {| initialCapital := int 30000;
     durationYears := 10;
     reinvestGains := true;
     yieldPhases :=
       [ YieldPhase.mk 1 1 10 (int 6) false;
         YieldPhase.mk 2 5 5 (int 3) true ];
     transactions := [] |}.

(** One year at an annual rate of -200%. *)
Definition negativeRateState : State N :=
  {| initialCapital := int 30000;
     durationYears := 1;
     reinvestGains := true;
     yieldPhases := [ YieldPhase.mk 1 1 1 (int (-200)) false ];
     transactions := [] |}.

(** A transaction of a type the program does not know. *)
Definition weeklyBonus : Transaction.t N :=
  Transaction.mk 1 "Bonus" (int 500) "weekly" 1 1 false.

(** Custom monthly transactions whose range is inverted: by one year
    ([endYear = startYear - 1]) and by two. *)
Definition invertedByOne : Transaction.t N :=
  Transaction.mk 2 "Inverted" (int 500) "monthly" 5 4 true.

Definition invertedByTwo : Transaction.t N :=
  Transaction.mk 3 "Inverted" (int 500) "monthly" 5 3 true.

(** A monthly savings plan and a one-time deposit. *)
Definition savingsPlan : Transaction.t N :=
  Transaction.mk 1 "Savings Plan" (int 500) "monthly" 1 15 false.

Definition oneTimeDeposit : Transaction.t N :=
  Transaction.mk 4 "Extra Deposit" (int 500) "once" 3 15 false.

End Reference.

(** *** The two recurrences over the reals *)

Module Recurrence.
Local Open Scope R_scope.

(** [1.06^(1/12) - 1] *)
Definition r_m : R := Rpower (106 / 100) (1 / 12) - 1.

(** [b (1 + r_m) + 500]: the deposit after the gain. *)
Definition afterGain (b : R) : R := b * (1 + r_m) + 500.

(** [(b + 500) (1 + r_m)]: the deposit before the gain. *)
Definition beforeGain (b : R) : R := (b + 500) * (1 + r_m).

End Recurrence.

(** * The rest of the component: actions and the duration watcher *)

Section Actions.
Context {N : Type} `{JSNumber N}.

(** The state with another list of yield phases. *)
Definition withYieldPhases (s : State N) (ps : list (YieldPhase.t N))
    : State N :=
  {| initialCapital := initialCapital s;
     durationYears := durationYears s;
     reinvestGains := reinvestGains s;
     yieldPhases := ps;
     transactions := transactions s |}.

(** [toggleCustomDuration(item)] for a yield phase. *)
Definition toggleCustomDurationPhase (dur : Z) (p : YieldPhase.t N)
    : YieldPhase.t N :=
  let customDuration := negb (YieldPhase.customDuration p) in
  if negb customDuration
  then YieldPhase.mk (YieldPhase.id p) 1 dur (YieldPhase.rate p) customDuration
  else YieldPhase.mk (YieldPhase.id p) (YieldPhase.startYear p)
         (YieldPhase.endYear p) (YieldPhase.rate p) customDuration.

(** [toggleCustomDuration(item)] for a transaction. *)
Definition toggleCustomDurationTransaction (dur : Z) (t : Transaction.t N)
    : Transaction.t N :=
  let customDuration := negb (Transaction.customDuration t) in
  if negb customDuration
  then Transaction.mk (Transaction.id t) (Transaction.name t)
         (Transaction.amount t) (Transaction.type t) 1 dur customDuration
  else Transaction.mk (Transaction.id t) (Transaction.name t)
         (Transaction.amount t) (Transaction.type t)
         (Transaction.startYear t) (Transaction.endYear t) customDuration.

(** [addTransaction], with [now] the value of [Date.now()]. *)
Definition addTransaction (now : Z) (s : State N) : State N :=
  withTransactions s
    (transactions s
     ++ [ Transaction.mk now "Extra Deposit" (int 500) "monthly" 1
            (durationYears s) false ]).

Definition removeTransaction (id : Z) (s : State N) : State N :=
  withTransactions s
    (List.filter (fun t => negb (Transaction.id t =? id)) (transactions s)).

(** [addPhase], with [now] the value of [Date.now()]. *)
Definition addPhase (now : Z) (s : State N) : State N :=
  withYieldPhases s
    (yieldPhases s ++ [ YieldPhase.mk now 1 (durationYears s) (int 5) false ]).

Definition removePhase (id : Z) (s : State N) : State N :=
  withYieldPhases s
    (List.filter (fun p => negb (YieldPhase.id p =? id)) (yieldPhases s)).

(** *** The watcher of [durationYears] *)

(** The callback of [yieldPhases.value.forEach]. *)
Definition extendPhase (newVal oldVal : Z) (p : YieldPhase.t N)
    : YieldPhase.t N :=
  if negb (YieldPhase.customDuration p)
  then YieldPhase.mk (YieldPhase.id p) 1 newVal (YieldPhase.rate p)
         (YieldPhase.customDuration p)
  else if YieldPhase.endYear p =? oldVal
  then YieldPhase.mk (YieldPhase.id p) (YieldPhase.startYear p) newVal
         (YieldPhase.rate p) (YieldPhase.customDuration p)
  else p.

(** The callback of [transactions.value.forEach]. *)
Definition extendTransaction (newVal oldVal : Z) (t : Transaction.t N)
    : Transaction.t N :=
  if isMonthly t && negb (Transaction.customDuration t)
  then Transaction.mk (Transaction.id t) (Transaction.name t)
         (Transaction.amount t) (Transaction.type t)
         (Transaction.startYear t) newVal (Transaction.customDuration t)
  else if isMonthly t && (Transaction.endYear t =? oldVal)
  then Transaction.mk (Transaction.id t) (Transaction.name t)
         (Transaction.amount t) (Transaction.type t)
         (Transaction.startYear t) newVal (Transaction.customDuration t)
  else t.

(** The callback of [watch(durationYears, ...)]. *)
Definition onDurationChange (newVal oldVal : Z) (s : State N) : State N :=
  if newVal >? oldVal
  then {| initialCapital := initialCapital s;
          durationYears := durationYears s;
          reinvestGains := reinvestGains s;
          yieldPhases := map (extendPhase newVal oldVal) (yieldPhases s);
          transactions := map (extendTransaction newVal oldVal) (transactions s) |}
  else s.

(** Writing [durationYears] (the range input), then the watcher. *)
Definition setDurationYears (newVal : Z) (s : State N) : State N :=
  onDurationChange newVal (durationYears s)
    {| initialCapital := initialCapital s;
       durationYears := newVal;
       reinvestGains := reinvestGains s;
       yieldPhases := yieldPhases s;
       transactions := transactions s |}.

End Actions.

(** ** The tax over the reals *)

Module ExactTax.
Local Open Scope R_scope.

(** The tax on gains [g]: 70% of the gains less 1000, not below 0, times
    0.26375, rounded. *)
Definition taxOf (g : R) : R :=
  IZR (Int_part (Rmax 0 (g * (7 / 10) - 1000) * (26375 / 100000) + / 2)).

End ExactTax.

(** ** Stored snapshots

    What [JSON.parse] gives [loadFromLocal], as far as the function reads
    it; a key that may be missing is an [option]. *)

Module StoredPhase.
Record t (N : Type) : Type := mk {
  id : Z;
  startYear : Z;
  endYear : Z;
  rate : N;
  customDuration : option bool
}.
Arguments mk {N}.
Arguments id {N}.
Arguments startYear {N}.
Arguments endYear {N}.
Arguments rate {N}.
Arguments customDuration {N}.
End StoredPhase.

Module StoredTransaction.

(** A stored transaction has an [endYear], with or without a [duration]
    beside it, or, in the old format, a [duration] and no [endYear]. *)
Inductive period : Type :=
| EndYear (endYear : Z) (duration : option Z)
| Duration (duration : Z).

Record t (N : Type) : Type := mk {
  id : Z;
  name : string;
  amount : N;
  type : string;
  startYear : Z;
  extent : period;
  customDuration : option bool
}.
Arguments mk {N}.
Arguments id {N}.
Arguments name {N}.
Arguments amount {N}.
Arguments type {N}.
Arguments startYear {N}.
Arguments extent {N}.
Arguments customDuration {N}.
End StoredTransaction.

Module Snapshot.
Record t (N : Type) : Type := mk {
  initialCapital : N;
  durationYears : Z;
  reinvestGains : option bool;
  yieldPhases : list (StoredPhase.t N);
  transactions : list (StoredTransaction.t N)
}.
Arguments mk {N}.
Arguments initialCapital {N}.
Arguments durationYears {N}.
Arguments reinvestGains {N}.
Arguments yieldPhases {N}.
Arguments transactions {N}.
End Snapshot.

Section Persistence.
Context {N : Type} `{JSNumber N}.

(** The callback of [parsed.yieldPhases.map]. *)
Definition loadPhase (p : StoredPhase.t N) : YieldPhase.t N :=
  YieldPhase.mk (StoredPhase.id p) (StoredPhase.startYear p)
    (StoredPhase.endYear p) (StoredPhase.rate p)
    (match StoredPhase.customDuration p with
     | Some c => c
     | None => false
     end).

(** The callback of [parsed.transactions.map]. *)
Definition loadTransaction (t : StoredTransaction.t N) : Transaction.t N :=
  match StoredTransaction.extent t with
  | StoredTransaction.Duration duration =>
      Transaction.mk (StoredTransaction.id t) (StoredTransaction.name t)
        (StoredTransaction.amount t) (StoredTransaction.type t)
        (StoredTransaction.startYear t)
        (StoredTransaction.startYear t + duration - 1) true
  | StoredTransaction.EndYear endYear _ =>
      Transaction.mk (StoredTransaction.id t) (StoredTransaction.name t)
        (StoredTransaction.amount t) (StoredTransaction.type t)
        (StoredTransaction.startYear t) endYear
        (match StoredTransaction.customDuration t with
         | Some c => c
         | None => false
         end)
  end.

(** [loadFromLocal], with [saved] the parsed item of the store ([None]
    when there is none) and [s] the state it is called in. *)
Definition loadFromLocal (saved : option (Snapshot.t N)) (s : State N)
    : State N :=
  match saved with
  | Some parsed =>
      {| initialCapital := Snapshot.initialCapital parsed;
         durationYears := Snapshot.durationYears parsed;
         reinvestGains := match Snapshot.reinvestGains parsed with
                          | Some b => b
                          | None => reinvestGains s
                          end;
         yieldPhases := map loadPhase (Snapshot.yieldPhases parsed);
         transactions := map loadTransaction (Snapshot.transactions parsed) |}
  | None => s
  end.

(** The [data] object that [saveToLocal] serialises. *)
Definition savedData (s : State N) : Snapshot.t N :=
  {| Snapshot.initialCapital := initialCapital s;
     Snapshot.durationYears := durationYears s;
     Snapshot.reinvestGains := Some (reinvestGains s);
     Snapshot.yieldPhases :=
       map (fun p => StoredPhase.mk (YieldPhase.id p) (YieldPhase.startYear p)
                       (YieldPhase.endYear p) (YieldPhase.rate p)
                       (Some (YieldPhase.customDuration p)))
         (yieldPhases s);
     Snapshot.transactions :=
       map (fun t => StoredTransaction.mk (Transaction.id t)
                       (Transaction.name t) (Transaction.amount t)
                       (Transaction.type t) (Transaction.startYear t)
                       (StoredTransaction.EndYear (Transaction.endYear t) None)
                       (Some (Transaction.customDuration t)))
         (transactions s) |}.

(** [onMounted]: loading into the initial state, then the watcher of
    [durationYears] for the change that loading made. *)
Definition mounted (saved : option (Snapshot.t N)) : State N :=
  let loaded := loadFromLocal saved defaultState in
  onDurationChange (durationYears loaded) (durationYears (defaultState (N:=N)))
    loaded.

End Persistence.

(** ** Counting applications *)

Section Counting.
Context {N : Type} `{JSNumber N}.

(** The months of year [y] in which the month loop applies [t]. *)
Definition monthsApplied (dur y : Z) (t : Transaction.t N) : list Z :=
  List.filter (fun month => applies dur y month t) months.

(** How often the simulation of [dur] years applies [t]. *)
Definition timesApplied (dur : Z) (t : Transaction.t N) : Z :=
  Z.of_nat (length (flat_map (fun y => monthsApplied dur y t) (seqZ 1 dur))).

(** The same count in closed form: twelve for each year of [1..dur] that
    a monthly transaction is active in, one for a one-time transaction
    whose year is in [1..dur]. *)
Definition applications (dur : Z) (t : Transaction.t N) : Z :=
  if isMonthly t
  then 12 * Z.max 0 (Z.min dur (effectiveEnd dur t)
                     - Z.max 1 (Transaction.startYear t) + 1)
  else if isOnce t
  then (if (1 <=? Transaction.startYear t) && (Transaction.startYear t <=? dur)
        then 1 else 0)
  else 0.

End Counting.

(** ** More sample plans *)

Section MoreReference.
Context {N : Type} `{JSNumber N}.

(** Thirty years in two phases with custom periods; the first ends in
    year 15. *)
Definition twoPhaseState : State N :=
  {| initialCapital := int 30000;
     durationYears := 30;
     reinvestGains := true;
     yieldPhases :=
       [ YieldPhase.mk 1 1 15 (int 6) true;
         YieldPhase.mk 2 16 30 (int 4) true ];
     transactions := [] |}.

(** A custom monthly transaction that runs five years past a horizon of
    fifteen. *)
Definition longPlan : Transaction.t N :=
  Transaction.mk 6 "Long plan" (int 500) "monthly" 1 20 true.

(** A capital of [10^17], and a custom monthly transaction of 0.01 for the
    years 5 to 3. *)
Definition largeCapitalState : State N :=
  {| initialCapital := int (10 ^ 17);
     durationYears := 15;
     reinvestGains := true;
     yieldPhases := [];
     transactions := [] |}.

Definition invertedCent : Transaction.t N :=
  Transaction.mk 5 "Inverted" (num (1 # 100)) "monthly" 5 3 true.

End MoreReference.

(** * Properties *)

(** ** The year loop *)

Section YearLoop.
Context {N : Type} `{JSNumber N}.
Implicit Types (s : State N) (n k i : nat) (y : Z).

Lemma yearLoop_length s n y bal tg : length (yearLoop s n y bal tg) = n.
Proof.
  revert y bal tg. induction n as [|n IH]; intros y bal tg; simpl.
  - reflexivity.
  - now rewrite IH.
Qed.

Lemma yearAcc_eq s y bal tg :
  yearAcc s y bal tg
  = fold_left (monthStep s y) months
      {| currentBalance := bal; totalGains := tg;
         yearDeposits := int 0; yearReturns := int 0 |}.
Proof. reflexivity. Qed.

Lemma yearLoop_S s n y bal tg :
  yearLoop s (S n) y bal tg
  = yearResult s y (yearAcc s y bal tg)
    :: yearLoop s n (y + 1) (currentBalance (yearAcc s y bal tg))
         (totalGains (yearAcc s y bal tg)).
Proof. reflexivity. Qed.

Lemma stateAfter_S s n :
  stateAfter s (S n)
  = (currentBalance
       (yearAcc s (Z.of_nat (S n)) (stateAfter s n).1 (stateAfter s n).2),
     totalGains
       (yearAcc s (Z.of_nat (S n)) (stateAfter s n).1 (stateAfter s n).2)).
Proof. reflexivity. Qed.

Lemma yearLoop_years s n y bal tg :
  map year (yearLoop s n y bal tg) = seqZ y (Z.of_nat n).
Proof.
  revert y bal tg. induction n as [|n IH]; intros y bal tg.
  - reflexivity.
  - rewrite yearLoop_S, Nat2Z.inj_succ, seqZ_cons by lia.
    rewrite map_cons, IH. unfold yearResult at 1. cbn [year].
    f_equal. f_equal; lia.
Qed.

Lemma yearLoop_lookup s n k i :
  (i < n)%nat ->
  yearLoop s n (Z.of_nat (S k)) (stateAfter s k).1 (stateAfter s k).2 !! i
  = Some (resultOf s (k + i)).
Proof.
  revert k i. induction n as [|n IH]; intros k i Hi; [lia|].
  rewrite yearLoop_S. destruct i as [|i].
  - rewrite Nat.add_0_r. reflexivity.
  - rewrite lookup_cons. 
    replace (k + S i)%nat with (S k + i)%nat by lia.
    rewrite <- (IH (S k) i) by lia.
    rewrite stateAfter_S. cbn [fst snd].
    replace (Z.of_nat (S (S k))) with (Z.of_nat (S k) + 1) by lia.
    reflexivity.
Qed.

Lemma calculateData_lookup s i :
  (i < Z.to_nat (durationYears s))%nat ->
  calculateData s !! i = Some (resultOf s i).
Proof.
  intros Hi. unfold calculateData.
  exact (yearLoop_lookup s _ 0 i Hi).
Qed.

Lemma calculateData_lookup_inv s i r :
  calculateData s !! i = Some r ->
  (i < Z.to_nat (durationYears s))%nat /\ r = resultOf s i.
Proof.
  intros Hr. assert (Hi : (i < Z.to_nat (durationYears s))%nat).
  { apply lookup_lt_Some in Hr. unfold calculateData in Hr.
    now rewrite yearLoop_length in Hr. }
  split; [exact Hi|]. rewrite calculateData_lookup in Hr by exact Hi.
  congruence.
Qed.

End YearLoop.

(** From here on a year is unfolded by [yearAcc_eq] only. *)
Opaque yearAcc.

(** ** The entries of [calculateData] *)

Section Entries.
Context {N : Type} `{JSNumber N}.
Implicit Types (s : State N) (p q : YieldPhase.t N) (y : Z).

(** C7: for a duration of at least one year, [calculateData] has exactly
    [durationYears] entries and their [year] fields are
    [1, 2, ..., durationYears], ascending and without a gap. *)
Theorem calculateData_years s :
  1 <= durationYears s ->
  Z.of_nat (length (calculateData s)) = durationYears s
  /\ map year (calculateData s) = seqZ 1 (durationYears s)
  /\ forall (i : nat) (r : YearResult N),
       calculateData s !! i = Some r -> year r = Z.of_nat i + 1.
Proof.
  intros Hdur. unfold calculateData. split; [|split].
  - rewrite yearLoop_length. lia.
  - rewrite yearLoop_years. f_equal. lia.
  - intros i r Hr. apply calculateData_lookup_inv in Hr as [_ ->].
    unfold resultOf, yearResult. cbn [year]. lia.
Qed.

Lemma covers_spec y p :
  covers y p = true
  <-> YieldPhase.startYear p <= y <= YieldPhase.endYear p.
Proof.
  unfold covers. rewrite andb_true_iff, Z.geb_le, Z.leb_le. tauto.
Qed.

Lemma last_filter_split {A} (f : A -> bool) (l1 l2 : list A) (x : A) :
  f x = true ->
  (forall z, In z l2 -> f z = false) ->
  last (List.filter f (l1 ++ x :: l2)) = Some x.
Proof.
  intros Hx Hl2. rewrite List.filter_app. cbn [List.filter]. rewrite Hx.
  assert (Hnil : List.filter f l2 = []).
  { induction l2 as [|z l2 IH]; [reflexivity|]. cbn [List.filter].
    rewrite (Hl2 z) by (left; reflexivity).
    apply IH. intros w Hw. apply Hl2. right. exact Hw. }
  rewrite Hnil. apply last_snoc.
Qed.

Lemma filter_none {A} (f : A -> bool) (l : list A) :
  (forall z, In z l -> f z = false) -> List.filter f l = [].
Proof.
  induction l as [|z l IH]; intros Hl; [reflexivity|]. cbn [List.filter].
  rewrite (Hl z) by (left; reflexivity).
  apply IH. intros w Hw. apply Hl. right. exact Hw.
Qed.

(** C3: the [rate] field of a year is the rate of the last phase of the
    collection that covers the year, whatever earlier phases cover it too,
    and [0] when no phase covers the year. *)
Theorem rate_of_last_covering_phase s (i : nat) (r : YearResult N) :
  calculateData s !! i = Some r ->
  (forall l1 p l2,
      yieldPhases s = l1 ++ p :: l2 ->
      YieldPhase.startYear p <= Z.of_nat i + 1 <= YieldPhase.endYear p ->
      (forall q, In q l2 ->
         ~ (YieldPhase.startYear q <= Z.of_nat i + 1 <= YieldPhase.endYear q)) ->
      rate r = YieldPhase.rate p)
  /\ ((forall q, In q (yieldPhases s) ->
         ~ (YieldPhase.startYear q <= Z.of_nat i + 1 <= YieldPhase.endYear q)) ->
      rate r = int 0).
Proof.
  intros Hr. apply calculateData_lookup_inv in Hr as [_ ->].
  unfold resultOf, yearResult. cbn [rate].
  replace (Z.of_nat (S i)) with (Z.of_nat i + 1) by lia.
  unfold phaseRate, matchingPhases. split.
  - intros l1 p l2 -> Hp Hl2.
    rewrite (last_filter_split _ l1 l2 p); [reflexivity| |].
    + now apply covers_spec.
    + intros q Hq. specialize (Hl2 q Hq). rewrite <- covers_spec in Hl2.
      now destruct (covers _ q).
  - intros Hnone. rewrite filter_none; [reflexivity|].
    intros q Hq. specialize (Hnone q Hq). rewrite <- covers_spec in Hnone.
    now destruct (covers _ q).
Qed.

End Entries.

(** ** Transactions *)

Section Transactions.
Context {N : Type} `{JSNumber N}.
Implicit Types (s : State N) (t : Transaction.t N) (y dur month : Z).

Lemma isMonthly_spec t : isMonthly t = true <-> Transaction.type t = "monthly".
Proof. unfold isMonthly. apply String.eqb_eq. Qed.

Lemma isOnce_spec t : isOnce t = true <-> Transaction.type t = "once".
Proof. unfold isOnce. apply String.eqb_eq. Qed.

Lemma once_not_monthly t : Transaction.type t = "once" -> isMonthly t = false.
Proof. unfold isMonthly. now intros ->. Qed.

Lemma yearDeposits_monthStep s y a month :
  yearDeposits (monthStep s y a month)
  = (applyTransactions s y month (currentBalance a, yearDeposits a)).2.
Proof.
  unfold monthStep.
  now destruct (applyTransactions s y month (currentBalance a, yearDeposits a)).
Qed.

Lemma yearDeposits_fold s y (f : N -> Z -> N) (ms : list Z) a :
  (forall b d m, In m ms ->
     (applyTransactions s y m (b, d)).2 = f d m) ->
  yearDeposits (fold_left (monthStep s y) ms a)
  = fold_left f ms (yearDeposits a).
Proof.
  revert a. induction ms as [|m ms IH]; intros a Hf; [reflexivity|].
  cbn [fold_left]. rewrite IH.
  - rewrite yearDeposits_monthStep, Hf by (left; reflexivity). reflexivity.
  - intros b d m' Hm'. apply Hf. right. exact Hm'.
Qed.

End Transactions.

(** ** Reinvesting the gains or not *)

Section Reinvestment.
Context {N : Type} `{JSNumber N}.
Implicit Types (s : State N) (t : Transaction.t N) (y month : Z) (a : Acc N).

Lemma applyTransaction_fst dur y month bal dep t :
  (applyTransaction dur y month (bal, dep) t).1
  = if applies dur y month t then (bal + Transaction.amount t)%js else bal.
Proof.
  unfold applyTransaction, applies.
  destruct (isActive dur y t); [|reflexivity].
  destruct (isMonthly t); [reflexivity|].
  now destruct (isOnce t && (month =? 1)).
Qed.

Lemma applyTransactions_fst s y month bal dep :
  (applyTransactions s y month (bal, dep)).1 = principalMonth s y bal month.
Proof.
  unfold applyTransactions, principalMonth.
  generalize (transactions s) as ts. intros ts. revert bal dep.
  induction ts as [|t ts IH]; intros bal dep; [reflexivity|].
  cbn [fold_left].
  destruct (applyTransaction (durationYears s) y month (bal, dep) t)
    as [bal' dep'] eqn:Ht.
  rewrite IH. f_equal.
  change bal' with (bal', dep').1. rewrite <- Ht.
  apply applyTransaction_fst.
Qed.

Lemma currentBalance_monthStep s y a month :
  currentBalance (monthStep s y a month)
  = if reinvestGains s then compoundMonth s y (currentBalance a) month
    else principalMonth s y (currentBalance a) month.
Proof.
  unfold monthStep, compoundMonth.
  rewrite <- (applyTransactions_fst s y month _ (yearDeposits a)).
  destruct (applyTransactions s y month (currentBalance a, yearDeposits a)).
  now destruct (reinvestGains s).
Qed.

Lemma totalGains_monthStep s y a month :
  totalGains (monthStep s y a month)
  = (totalGains a
     + principalMonth s y (currentBalance a) month * monthlyRate s y)%js.
Proof.
  unfold monthStep.
  rewrite <- (applyTransactions_fst s y month _ (yearDeposits a)).
  now destruct (applyTransactions s y month (currentBalance a, yearDeposits a)).
Qed.

Lemma currentBalance_fold_principal s y (ms : list Z) a :
  reinvestGains s = false ->
  currentBalance (fold_left (monthStep s y) ms a)
  = fold_left (principalMonth s y) ms (currentBalance a).
Proof.
  intros Hre. revert a. induction ms as [|m ms IH]; intros a; [reflexivity|].
  cbn [fold_left]. now rewrite IH, currentBalance_monthStep, Hre.
Qed.

Lemma currentBalance_fold_compound s y (ms : list Z) a :
  reinvestGains s = true ->
  currentBalance (fold_left (monthStep s y) ms a)
  = fold_left (compoundMonth s y) ms (currentBalance a).
Proof.
  intros Hre. revert a. induction ms as [|m ms IH]; intros a; [reflexivity|].
  cbn [fold_left]. now rewrite IH, currentBalance_monthStep, Hre.
Qed.

Lemma totalGains_fold_principal s y (ms : list Z) a :
  reinvestGains s = false ->
  totalGains (fold_left (monthStep s y) ms a)
  = fold_left add (principalGainsOf s y ms (currentBalance a)) (totalGains a).
Proof.
  intros Hre. revert a. induction ms as [|m ms IH]; intros a; [reflexivity|].
  cbn [fold_left principalGainsOf].
  now rewrite IH, currentBalance_monthStep, totalGains_monthStep, Hre.
Qed.

Lemma stateAfter_principal s (n : nat) :
  reinvestGains s = false ->
  stateAfter s n = (principalAfter s n, sumOf (principalGains s n)).
Proof.
  intros Hre. induction n as [|n IH]; [reflexivity|].
  rewrite stateAfter_S, IH. cbn [fst snd principalAfter principalGains].
  rewrite yearAcc_eq. unfold principalYear, sumOf.
  rewrite currentBalance_fold_principal, totalGains_fold_principal by exact Hre.
  cbn [currentBalance totalGains]. now rewrite fold_left_app.
Qed.

Lemma stateAfter_compound s (n : nat) :
  reinvestGains s = true -> (stateAfter s n).1 = compoundAfter s n.
Proof.
  intros Hre. induction n as [|n IH]; [reflexivity|].
  rewrite stateAfter_S. cbn [fst compoundAfter]. rewrite yearAcc_eq.
  rewrite currentBalance_fold_compound by exact Hre.
  cbn [currentBalance]. now rewrite IH.
Qed.

Lemma balance_resultOf s (i : nat) :
  balance (resultOf s i)
  = Math_round (if reinvestGains s then (stateAfter s (S i)).1
                else ((stateAfter s (S i)).1 + (stateAfter s (S i)).2)%js).
Proof. rewrite stateAfter_S. reflexivity. Qed.

(** C2: without reinvestment the balance recorded for a year is the
    rounded sum of the principal-only balance, which only transactions
    change, and of every monthly gain since year 1; with reinvestment it
    is the rounded balance to which each monthly gain was added at once,
    so that the months after it earn on it. *)
Theorem balance_by_reinvestment_policy s (i : nat) (r : YearResult N) :
  calculateData s !! i = Some r ->
  (reinvestGains s = false ->
     balance r
     = Math_round (principalAfter s (S i) + sumOf (principalGains s (S i)))%js)
  /\ (reinvestGains s = true ->
     balance r = Math_round (compoundAfter s (S i))).
Proof.
  intros Hr. apply calculateData_lookup_inv in Hr as [_ ->].
  rewrite balance_resultOf. split; intros Hre; rewrite Hre.
  - now rewrite (stateAfter_principal s (S i) Hre).
  - now rewrite (stateAfter_compound s (S i) Hre).
Qed.

End Reinvestment.

(** ** What the transactions do to a year *)

Section TransactionEffects.
Context {N : Type} `{JSNumber N}.
Implicit Types (s : State N) (t : Transaction.t N) (y dur month : Z).

Lemma applyTransaction_applies dur y month (bal dep : N) t :
  applyTransaction dur y month (bal, dep) t
  = if applies dur y month t
    then ((bal + Transaction.amount t)%js, (dep + Transaction.amount t)%js)
    else (bal, dep).
Proof.
  unfold applyTransaction, applies.
  destruct (isActive dur y t); [|reflexivity].
  destruct (isMonthly t); [reflexivity|].
  now destruct (isOnce t && (month =? 1)).
Qed.

Lemma applyTransactions_snd s y month (bal dep : N) :
  (applyTransactions s y month (bal, dep)).2 = principalMonth s y dep month.
Proof.
  unfold applyTransactions, principalMonth.
  generalize (transactions s) as ts. intros ts. revert bal dep.
  induction ts as [|t ts IH]; intros bal dep; [reflexivity|].
  cbn [fold_left]. rewrite applyTransaction_applies.
  destruct (applies (durationYears s) y month t); apply IH.
Qed.

Lemma applies_monthly dur y month t :
  Transaction.type t = "monthly" -> applies dur y month t = isActive dur y t.
Proof.
  intros Hty. unfold applies.
  rewrite (proj2 (isMonthly_spec t) Hty). cbn [orb]. apply andb_true_r.
Qed.

Lemma applies_once dur y month t :
  Transaction.type t = "once" ->
  applies dur y month t = isActive dur y t && (month =? 1).
Proof.
  intros Hty. unfold applies.
  rewrite (once_not_monthly t Hty), (proj2 (isOnce_spec t) Hty).
  reflexivity.
Qed.

Lemma monthsApplied_monthly dur y t :
  Transaction.type t = "monthly" ->
  monthsApplied dur y t = if isActive dur y t then months else [].
Proof.
  intros Hty. unfold monthsApplied.
  rewrite (filter_ext _ (fun _ => isActive dur y t))
    by (intros m; now apply applies_monthly).
  now destruct (isActive dur y t).
Qed.

Lemma monthsApplied_once dur y t :
  Transaction.type t = "once" ->
  monthsApplied dur y t = if isActive dur y t then [1] else [].
Proof.
  intros Hty. unfold monthsApplied.
  rewrite (filter_ext _ (fun m => isActive dur y t && (m =? 1)))
    by (intros m; now apply applies_once).
  now destruct (isActive dur y t).
Qed.

Lemma isActive_monthly dur y t :
  Transaction.type t = "monthly" ->
  isActive dur y t = true
  <-> Transaction.startYear t <= y <= effectiveEnd dur t.
Proof.
  intros Hty. unfold isActive.
  rewrite (proj2 (isMonthly_spec t) Hty), andb_true_iff, Z.geb_le, Z.leb_le.
  lia.
Qed.

Lemma isActive_once dur y t :
  Transaction.type t = "once" ->
  isActive dur y t = true <-> y = Transaction.startYear t.
Proof.
  intros Hty. unfold isActive.
  rewrite (once_not_monthly t Hty), andb_true_iff, Z.geb_le, Z.leb_le.
  lia.
Qed.

(** C4: the effective end of a transaction and the years in which it is
    active; the months of a year in which it is applied: all twelve when
    monthly and active, month 1 alone when one-time and active; what an
    application does: the amount is added to the balance and to the
    deposits of the year.  In the engine, every month of every simulated
    year, the balance on which the gain is computed is the balance of the
    month before plus the amounts of the transactions applied that month,
    in the order of the list, and the deposits grow by the same amounts;
    the [deposits] recorded for the year are the rounded sum of the twelve
    months, and the [balance] recorded is the rounded balance that the
    months since year 1 have built up this way. *)
Theorem transaction_activity s (i : nat) (r : YearResult N) :
  calculateData s !! i = Some r ->
  (forall dur y t,
     (Transaction.type t = "monthly" /\ Transaction.customDuration t = false ->
        effectiveEnd dur t = dur)
     /\ (~ (Transaction.type t = "monthly"
            /\ Transaction.customDuration t = false) ->
         effectiveEnd dur t = Transaction.endYear t)
     /\ (Transaction.type t = "monthly" ->
         (isActive dur y t = true
          <-> Transaction.startYear t <= y <= effectiveEnd dur t)
         /\ (forall month, applies dur y month t = isActive dur y t)
         /\ monthsApplied dur y t = (if isActive dur y t then months else []))
     /\ (Transaction.type t = "once" ->
         (isActive dur y t = true <-> y = Transaction.startYear t)
         /\ (forall month,
               applies dur y month t = isActive dur y t && (month =? 1))
         /\ monthsApplied dur y t = (if isActive dur y t then [1] else []))
     /\ (forall month bal dep,
           applyTransaction dur y month (bal, dep) t
           = if applies dur y month t
             then ((bal + Transaction.amount t)%js,
                   (dep + Transaction.amount t)%js)
             else (bal, dep)))
  /\ (forall y month bal,
        principalMonth s y bal month
        = fold_left
            (fun b t => if applies (durationYears s) y month t
                        then (b + Transaction.amount t)%js else b)
            (transactions s) bal)
  /\ (forall y a month,
        let b := principalMonth s y (currentBalance a) month in
        currentBalance (monthStep s y a month)
        = (if reinvestGains s then (b + b * monthlyRate s y)%js else b)
        /\ yearDeposits (monthStep s y a month)
           = principalMonth s y (yearDeposits a) month)
  /\ deposits r
     = Math_round
         (fold_left (principalMonth s (Z.of_nat i + 1)) months (int 0))
  /\ balance r
     = Math_round
         (if reinvestGains s then compoundAfter s (S i)
          else (principalAfter s (S i) + sumOf (principalGains s (S i)))%js).
Proof.
  intros Hr. apply calculateData_lookup_inv in Hr as [_ ->].
  split; [|split; [|split; [|split]]].
  - intros dur y t. split; [|split; [|split; [|split]]].
    + intros [Hty Hc]. unfold effectiveEnd.
      now rewrite Hc, (proj2 (isMonthly_spec t) Hty).
    + intros Hnot. unfold effectiveEnd.
      destruct (Transaction.customDuration t) eqn:Hc; [reflexivity|].
      destruct (isMonthly t) eqn:Hm; [|reflexivity].
      exfalso. apply Hnot. split; [now apply isMonthly_spec|reflexivity].
    + intros Hty. split; [now apply isActive_monthly|].
      split; [intros month; now apply applies_monthly|].
      now apply monthsApplied_monthly.
    + intros Hty. split; [now apply isActive_once|].
      split; [intros month; now apply applies_once|].
      now apply monthsApplied_once.
    + intros month bal dep. apply applyTransaction_applies.
  - reflexivity.
  - intros y a month b. split.
    + rewrite currentBalance_monthStep. reflexivity.
    + rewrite yearDeposits_monthStep. apply applyTransactions_snd.
  - change (deposits (resultOf s i))
      with (Math_round
              (yearDeposits
                 (yearAcc s (Z.of_nat (S i)) (stateAfter s i).1
                    (stateAfter s i).2))).
    rewrite yearAcc_eq.
    rewrite (yearDeposits_fold s (Z.of_nat (S i))
               (principalMonth s (Z.of_nat (S i))) months).
    + cbn [yearDeposits].
      now replace (Z.of_nat (S i)) with (Z.of_nat i + 1) by lia.
    + intros b d m _. apply applyTransactions_snd.
  - rewrite balance_resultOf. destruct (reinvestGains s) eqn:Hre.
    + now rewrite (stateAfter_compound s (S i) Hre).
    + now rewrite (stateAfter_principal s (S i) Hre).
Qed.

End TransactionEffects.

(** ** Arithmetic of the exact numbers *)

Section IdealArithmetic.
Local Open Scope R_scope.
Local Abbreviation Fin := Ideal.Fin.
Local Abbreviation NaN := Ideal.NaN.
Implicit Types (x y e : R) (a b : Ideal.number).

Lemma Rltb_true x y : x < y -> Ideal.Rltb x y = true.
Proof. intros Hxy. unfold Ideal.Rltb. now destruct (Rlt_dec x y). Qed.

Lemma Rltb_false x y : ~ x < y -> Ideal.Rltb x y = false.
Proof. intros Hxy. unfold Ideal.Rltb. now destruct (Rlt_dec x y). Qed.

Lemma Reqb_false x y : x <> y -> Ideal.Reqb x y = false.
Proof. intros Hxy. unfold Ideal.Reqb. now destruct (Req_dec_T x y). Qed.

Lemma num_Fin (q : Q) : num q = Fin (Q2R q).
Proof. reflexivity. Qed.

Lemma int_Fin (z : Z) : int z = Fin (IZR z).
Proof.
  unfold int. rewrite num_Fin. f_equal.
  unfold Q2R, inject_Z. cbn [Qnum Qden]. lra.
Qed.

Lemma add_Fin x y : (Fin x + Fin y)%js = Fin (x + y).
Proof. reflexivity. Qed.

Lemma sub_Fin x y : (Fin x - Fin y)%js = Fin (x - y).
Proof. reflexivity. Qed.

Lemma mul_Fin x y : (Fin x * Fin y)%js = Fin (x * y).
Proof. reflexivity. Qed.

Lemma div_Fin x y : y <> 0 -> (Fin x / Fin y)%js = Fin (x / y).
Proof.
  intros Hy. change (Fin x / Fin y)%js with (Ideal.div (Fin x) (Fin y)).
  unfold Ideal.div. now rewrite (Reqb_false y 0 Hy).
Qed.

Lemma round_Fin x : Math_round (Fin x) = Fin (IZR (Int_part (x + / 2))).
Proof. reflexivity. Qed.

Lemma max_Fin x y : Math_max (Fin x) (Fin y) = Fin (Rmax x y).
Proof.
  change (Math_max (Fin x) (Fin y)) with (Ideal.Math_max (Fin x) (Fin y)).
  unfold Ideal.Math_max, Ideal.gt, Ideal.Rltb, Rmax.
  destruct (Rlt_dec x y), (Rle_dec x y); try reflexivity;
    try (exfalso; lra); f_equal; lra.
Qed.

Lemma pow_Fin_pos x e :
  0 < x -> e <> 0 -> Math_pow (Fin x) (Fin e) = Fin (Rpower x e).
Proof.
  intros Hx He.
  change (Math_pow (Fin x) (Fin e)) with (Ideal.Math_pow (Fin x) (Fin e)).
  unfold Ideal.Math_pow, Ideal.powFin.
  rewrite (Reqb_false e 0 He), (Reqb_false x 0) by lra.
  now rewrite (Rltb_true 0 x Hx).
Qed.

Lemma twelfth_not_integer : Ideal.isInteger (1 / 12) = false.
Proof.
  unfold Ideal.isInteger. apply Reqb_false. intros Hz.
  assert (Hz' : IZR (12 * Int_part (1 / 12)) = IZR 1).
  { rewrite mult_IZR, Hz. lra. }
  apply eq_IZR in Hz'. lia.
Qed.

Lemma pow_Fin_neg_twelfth x :
  x < 0 -> Math_pow (Fin x) (Fin (1 / 12)) = NaN.
Proof.
  intros Hx.
  change (Math_pow (Fin x) (Fin (1 / 12)))
    with (Ideal.Math_pow (Fin x) (Fin (1 / 12))).
  unfold Ideal.Math_pow, Ideal.powFin.
  rewrite (Reqb_false (1 / 12) 0), (Reqb_false x 0) by lra.
  rewrite (Rltb_false 0 x) by lra.
  now rewrite twelfth_not_integer.
Qed.

Lemma add_NaN_r a : (a + NaN)%js = NaN.
Proof. now destruct a. Qed.

Lemma mul_NaN_r a : (a * NaN)%js = NaN.
Proof. now destruct a. Qed.

(** Rounding of a real that lies in a known unit interval. *)
Lemma Int_part_half (x : R) (z : Z) :
  IZR z - / 2 <= x < IZR z + / 2 -> Int_part (x + / 2) = z.
Proof.
  intros Hx. symmetry. apply Int_part_spec. split; lra.
Qed.

(** Two reals at least one apart do not round to the same integer. *)
Lemma Int_part_apart (x y : R) :
  x + 1 <= y -> Int_part (x + / 2) <> Int_part (y + / 2).
Proof.
  intros Hxy Heq.
  destruct (base_Int_part (x + / 2)) as [Hx1 Hx2].
  destruct (base_Int_part (y + / 2)) as [Hy1 Hy2].
  rewrite Heq in Hx1. lra.
Qed.

End IdealArithmetic.

(** ** Tax *)

Section Tax.
Local Open Scope R_scope.
Local Abbreviation Fin := Ideal.Fin.

Lemma taxInfo_last {N} `{JSNumber N} (s : State N) (d : YearResult N) :
  last (calculateData s) = Some d ->
  taxInfo s = Some (taxOn (balance d) (totalInvested s) (durationYears s)).
Proof. intros Hd. unfold taxInfo. now rewrite Hd. Qed.

End Tax.

(** ** The tax in the arithmetic of the program *)

Section TaxFormula.
Local Open Scope R_scope.

Lemma taxOn_fields {N : Type} `{JSNumber N} (finalBalance invested : N)
    (dur : Z) :
  let r := taxOn finalBalance invested dur in
  gains r = Math_max (int 0) (finalBalance - invested)%js
  /\ tax r
     = Math_round
         (Math_max (int 0)
            (gains r * (int 1 - num (30 # 100)) - int 1000)%js
          * num (26375 # 100000))%js
  /\ afterTax r = (finalBalance - tax r)%js
  /\ effectiveRate r
     = if (gains r >? int 0)%js
       then toFixed (tax r / gains r * int 100)%js 1
       else Lit "0.0".
Proof. cbn zeta. repeat split. Qed.

(** The tax on given gains. *)
Lemma tax_of_gains {N : Type} `{JSNumber N} (finalBalance invested g : N)
    (dur : Z) :
  gains (taxOn finalBalance invested dur) = g ->
  tax (taxOn finalBalance invested dur)
  = Math_round
      (Math_max (int 0) (g * (int 1 - num (30 # 100)) - int 1000)%js
       * num (26375 # 100000))%js
  /\ effectiveRate (taxOn finalBalance invested dur)
     = if (g >? int 0)%js
       then toFixed (tax (taxOn finalBalance invested dur) / g * int 100)%js 1
       else Lit "0.0".
Proof.
  intros Hg.
  destruct (taxOn_fields finalBalance invested dur) as (_ & Ht & _ & Hr).
  cbn zeta in Ht, Hr. rewrite Hg in Ht, Hr. split; assumption.
Qed.

(** C5: the fields of the tax result, in the arithmetic of the program.
    On every carrier: [gains] is [max(0, finalBalance - totalInvested)];
    the taxable gains are the gains times [1 - 0.30]; 1000 is taken off,
    not below 0; the tax is the rest times 0.26375, rounded; [afterTax] is
    the final balance less the tax; [effectiveRate] renders
    [tax / gains * 100] with [toFixed(1)] when the gains are positive and is
    the string "0.0" otherwise.  In doubles [1 - 0.30] is the double [0.7];
    gains of 5000 give a tax of 659, gains of 0 a tax of 0 and the rate
    "0.0", and gains of 42000 a tax of 7490. *)
Theorem tax_in_program_arithmetic :
  (forall (N : Type) (ops : JSNumber N) (finalBalance invested : N) (dur : Z),
     let r := taxOn finalBalance invested dur in
     gains r = Math_max (int 0) (finalBalance - invested)%js
     /\ tax r
        = Math_round
            (Math_max (int 0)
               (gains r * (int 1 - num (30 # 100)) - int 1000)%js
             * num (26375 # 100000))%js
     /\ afterTax r = (finalBalance - tax r)%js
     /\ effectiveRate r
        = (if (gains r >? int 0)%js
           then toFixed (tax r / gains r * int 100)%js 1
           else Lit "0.0")
     /\ forall (s : State N) (d : YearResult N),
          last (calculateData s) = Some d ->
          balance d = finalBalance -> totalInvested s = invested ->
          durationYears s = dur ->
          taxInfo s = Some r)
  /\ (forall pow : Double.number -> Double.number -> Double.number,
      let _ : JSNumber Double.number := Double.JS pow in
      (int 1 - num (30 # 100))%js = num (7 # 10)
      /\ forall (finalBalance invested : Double.number) (dur : Z),
           let r := taxOn finalBalance invested dur in
           (gains r = int 5000 ->
            tax r = int 659
            /\ effectiveRate r = toFixed (int 659 / int 5000 * int 100)%js 1)
           /\ (gains r = int 0 ->
               tax r = int 0 /\ effectiveRate r = Lit "0.0")
           /\ (gains r = int 42000 -> tax r = int 7490)).
Proof.
  split.
  - intros N ops finalBalance invested dur r.
    destruct (taxOn_fields finalBalance invested dur) as (Hg & Ht & Ha & He).
    fold r in Hg, Ht, Ha, He.
    split; [exact Hg|]. split; [exact Ht|]. split; [exact Ha|].
    split; [exact He|].
    intros s d Hd Hb Hi Hdur.
    rewrite (taxInfo_last s d Hd), Hb, Hi, Hdur. reflexivity.
  - intros pow ops. split; [vm_compute; reflexivity|].
    intros finalBalance invested dur r. split; [|split].
    + intros Hg.
      destruct (tax_of_gains finalBalance invested _ dur Hg) as [Ht He].
      fold r in Ht, He.
      assert (Htax : tax r = int 659) by (rewrite Ht; vm_compute; reflexivity).
      split; [exact Htax|]. rewrite He, Htax. reflexivity.
    + intros Hg.
      destruct (tax_of_gains finalBalance invested _ dur Hg) as [Ht He].
      fold r in Ht, He.
      split; [rewrite Ht; vm_compute; reflexivity|].
      rewrite He. reflexivity.
    + intros Hg.
      destruct (tax_of_gains finalBalance invested _ dur Hg) as [Ht _].
      fold r in Ht. rewrite Ht. vm_compute. reflexivity.
Qed.

(** With a final balance of 50000 and 8000 invested the gains are 42000.
    Computed exactly, 70% of them less 1000 times 0.26375 is 7490.5, which
    rounds to 7491; the program computes 7490.499999999998 and returns a
    tax of 7490. *)
Lemma tax_of_42000_is_7490 :
  (forall pow : Double.number -> Double.number -> Double.number,
     let _ : JSNumber Double.number := Double.JS pow in
     forall dur : Z,
       let r := taxOn (int 50000) (int 8000) dur in
       gains r = int 42000 /\ tax r = int 7490 /\ afterTax r = int 42510)
  /\ IZR (Int_part (Rmax 0 (42000 * (70 / 100) - 1000) * (26375 / 100000) + / 2))
     = 7491.
Proof.
  split.
  - intros pow ops dur r.
    destruct (taxOn_fields (int 50000) (int 8000) dur) as (Hg & Ht & Ha & _).
    fold r in Hg, Ht, Ha.
    assert (Hgains : gains r = int 42000)
      by (rewrite Hg; vm_compute; reflexivity).
    assert (Htax : tax r = int 7490)
      by (rewrite Ht, Hgains; vm_compute; reflexivity).
    split; [exact Hgains|]. split; [exact Htax|].
    rewrite Ha, Htax. vm_compute. reflexivity.
  - replace (Rmax 0 (42000 * (70 / 100) - 1000)) with 28400
      by (unfold Rmax; destruct (Rle_dec 0 (42000 * (70 / 100) - 1000)); lra).
    f_equal. apply Int_part_half. lra.
Qed.

End TaxFormula.

(** ** Benchmarks *)

Section BenchmarkWindow.
Context {N : Type} `{JSNumber N}.
Implicit Types (table : gmap Z N) (years : list Z) (y dur : Z) (c : N).

Lemma walk_spec table (n : nat) y years c :
  walk table n y years c
  = (years ++ List.filter (present table) (seqZ y (Z.of_nat n)),
     fold_left
       (fun c y => match table !! y with
                   | Some r => (c * (int 1 + r / int 100))%js
                   | None => c
                   end)
       (List.filter (present table) (seqZ y (Z.of_nat n))) c).
Proof.
  revert y years c. induction n as [|n IH]; intros y years c.
  - cbn [walk]. change (seqZ y (Z.of_nat 0)) with (@nil Z).
    cbn [List.filter fold_left]. now rewrite app_nil_r.
  - rewrite Nat2Z.inj_succ, seqZ_cons by lia.
    replace (Z.pred (Z.succ (Z.of_nat n))) with (Z.of_nat n) by lia.
    replace (Z.succ y) with (y + 1)%Z by lia.
    cbn [walk List.filter].
    destruct (table !! y) as [r|] eqn:Hy.
    + assert (Hp : present table y = true) by (unfold present; now rewrite Hy).
      rewrite Hp, IH. cbn [fold_left]. rewrite Hy, <- app_assoc. reflexivity.
    + assert (Hp : present table y = false) by (unfold present; now rewrite Hy).
      rewrite Hp, IH. reflexivity.
Qed.

Lemma window_spec table dur :
  window table dur
  = (presentYears table dur, compound table (presentYears table dur)).
Proof.
  unfold window, presentYears, compound, startYear, endYear.
  rewrite walk_spec. cbn [app].
  replace (2025 - (2025 - dur + 1) + 1)%Z with dur by lia.
  replace (seqZ (2025 - dur + 1) (Z.of_nat (Z.to_nat dur)))
    with (seqZ (2025 - dur + 1) dur)
    by (unfold seqZ; now rewrite Nat2Z.id).
  reflexivity.
Qed.

(** C6: the benchmark of an index walks the years [2025 - durationYears + 1]
    to [2025] upwards, multiplies [cumulative] by [1 + return / 100] for the
    years its table has and skips the others, counts in [n] the years it
    used, and reports [(cumulative^(1/n) - 1) * 100] (rendered with
    [toFixed(1)]) when [n > 0] and null when [n = 0].  With 2024 missing
    from a three-year window, [n] is 2, not 3. *)
Theorem benchmark_counts_present_years dur (e : Etf.t N) :
  let years := presentYears (Etf.returns e) dur in
  let cumulative := compound (Etf.returns e) years in
  let n := length years in
  let b := benchmark dur e in
  window (Etf.returns e) dur = (years, cumulative)
  /\ yearsAvailable b = n
  /\ yearsRequested b = dur
  /\ (n = 0%nat -> cagrOf years cumulative = None /\ cagr b = None)
  /\ ((0 < n)%nat ->
      let c := ((Math_pow cumulative (int 1 / int (Z.of_nat n)) - int 1)
                * int 100)%js in
      cagrOf years cumulative = Some c /\ cagr b = Some (toFixed c 1))
  /\ presentYears (Etf.returns (holedEtf (N:=N))) 3 = [2023; 2025]%Z
  /\ yearsAvailable (benchmark 3 (holedEtf (N:=N))) = 2%nat
  /\ yearsRequested (benchmark 3 (holedEtf (N:=N))) = 3%Z
  /\ map yearsAvailable (etfBenchmarks (defaultState (N:=N)))
     = [15; 15; 14]%nat.
Proof.
  intros years cumulative n b.
  assert (Hb : forall d (e' : Etf.t N),
             yearsAvailable (benchmark d e')
             = length (presentYears (Etf.returns e') d)
             /\ yearsRequested (benchmark d e') = d
             /\ cagr (benchmark d e')
                = match cagrOf (presentYears (Etf.returns e') d)
                          (compound (Etf.returns e')
                             (presentYears (Etf.returns e') d)) with
                  | Some c => Some (toFixed c 1)
                  | None => None
                  end).
  { intros d e'. unfold benchmark. rewrite window_spec. now cbn. }
  destruct (Hb dur e) as (Hn & Hreq & Hcagr).
  assert (Hholed : presentYears (Etf.returns (holedEtf (N:=N))) 3
                   = [2023; 2025]%Z) by reflexivity.
  split; [apply window_spec|]. split; [exact Hn|]. split; [exact Hreq|].
  split; [|split; [|split; [|split; [|split]]]].
  - intros Hzero. fold years cumulative in Hcagr.
    assert (Hc : cagrOf years cumulative = None).
    { unfold cagrOf. fold n. now rewrite Hzero. }
    split; [exact Hc|]. fold b in Hcagr. now rewrite Hcagr, Hc.
  - intros Hpos c. fold years cumulative in Hcagr.
    assert (Hc : cagrOf years cumulative = Some c).
    { unfold cagrOf. fold n.
      now rewrite (proj2 (Nat.ltb_lt 0 n) Hpos). }
    split; [exact Hc|]. fold b in Hcagr. now rewrite Hcagr, Hc.
  - exact Hholed.
  - destruct (Hb 3%Z holedEtf) as (-> & _ & _). now rewrite Hholed.
  - now destruct (Hb 3%Z holedEtf) as (_ & -> & _).
  - unfold etfBenchmarks, etfData. cbn [map durationYears defaultState].
    rewrite !(proj1 (Hb _ _)). reflexivity.
Qed.

End BenchmarkWindow.

(** ** Transactions that never apply *)

Section Skipped.
Context {N : Type} `{JSNumber N}.
Implicit Types (s : State N) (t : Transaction.t N) (y dur month : Z).

Lemma applyTransaction_skip dur y month (st : N * N) t :
  applies dur y month t = false -> applyTransaction dur y month st t = st.
Proof.
  unfold applies, applyTransaction. destruct st as [bal dep].
  destruct (isActive dur y t); [|reflexivity]. cbn [andb].
  destruct (isMonthly t); [discriminate|]. cbn [orb].
  now intros ->.
Qed.

Lemma applyTransactions_skip s (l1 l2 : list (Transaction.t N)) t y month st :
  applies (durationYears s) y month t = false ->
  applyTransactions (withTransactions s (l1 ++ t :: l2)) y month st
  = applyTransactions (withTransactions s (l1 ++ l2)) y month st.
Proof.
  intros Ht. unfold applyTransactions. cbn [transactions durationYears withTransactions].
  rewrite !fold_left_app. cbn [fold_left].
  now rewrite applyTransaction_skip.
Qed.

Lemma monthStep_ext s1 s2 y a month :
  reinvestGains s1 = reinvestGains s2 ->
  yieldPhases s1 = yieldPhases s2 ->
  (forall st, applyTransactions s1 y month st = applyTransactions s2 y month st) ->
  monthStep s1 y a month = monthStep s2 y a month.
Proof.
  intros Hre Hph Happ. unfold monthStep, monthlyRate, phaseRate, matchingPhases.
  now rewrite Happ, Hre, Hph.
Qed.

Lemma yearAcc_ext s1 s2 y bal tg :
  reinvestGains s1 = reinvestGains s2 ->
  yieldPhases s1 = yieldPhases s2 ->
  (forall month st,
     applyTransactions s1 y month st = applyTransactions s2 y month st) ->
  yearAcc s1 y bal tg = yearAcc s2 y bal tg.
Proof.
  intros Hre Hph Happ. rewrite !yearAcc_eq.
  generalize months as ms. intros ms.
  generalize {| currentBalance := bal; totalGains := tg;
                yearDeposits := int 0; yearReturns := int 0 |} as a.
  induction ms as [|m ms IH]; intros a; [reflexivity|].
  cbn [fold_left]. rewrite (monthStep_ext s1 s2) by auto. apply IH.
Qed.

Lemma yearLoop_ext s1 s2 (n : nat) y bal tg :
  reinvestGains s1 = reinvestGains s2 ->
  yieldPhases s1 = yieldPhases s2 ->
  (forall y month st,
     applyTransactions s1 y month st = applyTransactions s2 y month st) ->
  yearLoop s1 n y bal tg = yearLoop s2 n y bal tg.
Proof.
  intros Hre Hph Happ. revert y bal tg.
  induction n as [|n IH]; intros y bal tg; [reflexivity|].
  rewrite !yearLoop_S, (yearAcc_ext s1 s2) by auto.
  rewrite IH. f_equal.
  unfold yearResult, phaseRate, matchingPhases. now rewrite Hre, Hph.
Qed.

Lemma calculateData_skip s (l1 l2 : list (Transaction.t N)) t :
  (forall y month, applies (durationYears s) y month t = false) ->
  calculateData (withTransactions s (l1 ++ t :: l2))
  = calculateData (withTransactions s (l1 ++ l2)).
Proof.
  intros Ht. unfold calculateData.
  cbn [durationYears initialCapital withTransactions].
  apply yearLoop_ext; [reflexivity|reflexivity|].
  intros y month st. now apply applyTransactions_skip.
Qed.

Lemma unknown_type_never_applies dur y month t :
  Transaction.type t <> "monthly" -> Transaction.type t <> "once" ->
  applies dur y month t = false.
Proof.
  intros Hm Ho. unfold applies.
  rewrite <- isMonthly_spec in Hm. rewrite <- isOnce_spec in Ho.
  destruct (isMonthly t); [congruence|]. destruct (isOnce t); [congruence|].
  now rewrite andb_false_r.
Qed.

Lemma inverted_custom_never_applies dur y month t :
  Transaction.type t = "monthly" -> Transaction.customDuration t = true ->
  Transaction.endYear t < Transaction.startYear t ->
  applies dur y month t = false.
Proof.
  intros Hm Hc Hinv. unfold applies, isActive, effectiveEnd.
  apply isMonthly_spec in Hm. rewrite Hm, Hc. cbn [negb andb].
  destruct (y >=? Transaction.startYear t) eqn:Hge; [|reflexivity].
  destruct (y <=? Transaction.endYear t) eqn:Hle; [|reflexivity].
  apply Z.geb_le in Hge. apply Z.leb_le in Hle. lia.
Qed.

(** C9, as the program has it: a transaction whose type is neither
    "monthly" nor "once" is not rejected.  The simulation runs as if the
    transaction were not in the list, and [totalInvested] counts its amount
    once.  A yield phase with [startYear > endYear] covers no year, and a
    custom monthly transaction with [startYear > endYear] applies in no
    year. *)
Theorem unknown_type_is_skipped s (l1 l2 : list (Transaction.t N)) t :
  Transaction.type t <> "monthly" -> Transaction.type t <> "once" ->
  calculateData (withTransactions s (l1 ++ t :: l2))
  = calculateData (withTransactions s (l1 ++ l2))
  /\ Z.of_nat (length (calculateData (withTransactions s (l1 ++ t :: l2))))
     = Z.max 0 (durationYears s)
  /\ (forall acc,
        investedStep (durationYears s) acc t
        = (acc + Transaction.amount t * int 1)%js)
  /\ (forall (p : YieldPhase.t N) y,
        YieldPhase.startYear p > YieldPhase.endYear p -> covers y p = false)
  /\ (forall t' (k1 k2 : list (Transaction.t N)),
        Transaction.type t' = "monthly" ->
        Transaction.customDuration t' = true ->
        Transaction.startYear t' > Transaction.endYear t' ->
        (forall y, isActive (durationYears s) y t' = false)
        /\ calculateData (withTransactions s (k1 ++ t' :: k2))
           = calculateData (withTransactions s (k1 ++ k2))).
Proof.
  intros Hm Ho. split; [|split; [|split; [|split]]].
  - apply calculateData_skip. intros y month.
    now apply unknown_type_never_applies.
  - unfold calculateData. rewrite yearLoop_length.
    cbn [durationYears withTransactions]. lia.
  - intros acc. unfold investedStep, occurrences.
    rewrite <- isMonthly_spec in Hm. now destruct (isMonthly t).
  - intros p y Hinv. unfold covers.
    destruct (y >=? YieldPhase.startYear p) eqn:Hge; [|reflexivity].
    destruct (y <=? YieldPhase.endYear p) eqn:Hle; [|reflexivity].
    apply Z.geb_le in Hge. apply Z.leb_le in Hle. lia.
  - intros t' k1 k2 Hm' Hc' Hinv. split.
    + intros y. unfold isActive, effectiveEnd.
      apply isMonthly_spec in Hm'. rewrite Hm', Hc'. cbn [negb andb].
      destruct (y >=? Transaction.startYear t') eqn:Hge; [|reflexivity].
      destruct (y <=? Transaction.endYear t') eqn:Hle; [|reflexivity].
      apply Z.geb_le in Hge. apply Z.leb_le in Hle. lia.
    + apply calculateData_skip. intros y month.
      apply inverted_custom_never_applies; [assumption|assumption|lia].
Qed.

End Skipped.

(** ** Inverted custom periods *)

Section Inverted.

Lemma totalInvested_split {N : Type} `{JSNumber N} (s : State N)
    (l1 l2 : list (Transaction.t N)) (t : Transaction.t N) :
  totalInvested (withTransactions s (l1 ++ t :: l2))
  = (initialCapital s
     + fold_left (investedStep (durationYears s)) l2
         (fold_left (investedStep (durationYears s)) l1 (int 0)
          + Transaction.amount t * int (occurrences (durationYears s) t)))%js
  /\ totalInvested (withTransactions s (l1 ++ l2))
     = (initialCapital s
        + fold_left (investedStep (durationYears s)) l2
            (fold_left (investedStep (durationYears s)) l1 (int 0)))%js.
Proof.
  unfold totalInvested.
  cbn [initialCapital durationYears transactions withTransactions].
  rewrite !fold_left_app. split; reflexivity.
Qed.

(** C10, as the program has it.  On every carrier: a custom monthly
    transaction with [endYear < startYear] is applied in no month, so the
    simulated entries are those of the plan without it, while
    [totalInvested] adds [amount * ((endYear - startYear + 1) * 12)] for
    it, in its place in the list.  That count is never positive: it is 0
    when [endYear = startYear - 1] and at most -12 when
    [endYear < startYear - 1].  In doubles, with the savings plan of the
    default plan and 500 a month for the years 5 to 3 the total invested is
    114000 instead of 120000; with a capital of [10^17] and 0.01 a month
    for the years 5 to 3 it is [10^17] with and without the transaction. *)
Theorem inverted_custom_monthly :
  (forall (N : Type) (ops : JSNumber N) (s : State N)
          (l1 l2 : list (Transaction.t N)) (t : Transaction.t N),
     Transaction.type t = "monthly" ->
     Transaction.customDuration t = true ->
     Transaction.endYear t < Transaction.startYear t ->
     let count := (Transaction.endYear t - Transaction.startYear t + 1) * 12 in
     (forall y month, applies (durationYears s) y month t = false)
     /\ calculateData (withTransactions s (l1 ++ t :: l2))
        = calculateData (withTransactions s (l1 ++ l2))
     /\ occurrences (durationYears s) t = count
     /\ count <= 0
     /\ (Transaction.endYear t = Transaction.startYear t - 1 -> count = 0)
     /\ (Transaction.endYear t < Transaction.startYear t - 1 -> count <= -12)
     /\ totalInvested (withTransactions s (l1 ++ t :: l2))
        = (initialCapital s
           + fold_left (investedStep (durationYears s)) l2
               (fold_left (investedStep (durationYears s)) l1 (int 0)
                + Transaction.amount t * int count))%js
     /\ totalInvested (withTransactions s (l1 ++ l2))
        = (initialCapital s
           + fold_left (investedStep (durationYears s)) l2
               (fold_left (investedStep (durationYears s)) l1 (int 0)))%js)
  /\ (forall pow : Double.number -> Double.number -> Double.number,
      let _ : JSNumber Double.number := Double.JS pow in
      totalInvested (withTransactions defaultState [savingsPlan; invertedByTwo])
      = int 114000
      /\ totalInvested (withTransactions defaultState [savingsPlan])
         = int 120000
      /\ totalInvested (withTransactions largeCapitalState [invertedCent])
         = int (10 ^ 17)
      /\ totalInvested (withTransactions largeCapitalState [])
         = int (10 ^ 17)).
Proof.
  split.
  - intros N ops s l1 l2 t Hm Hc Hinv count.
    assert (Hocc : occurrences (durationYears s) t = count).
    { unfold occurrences, effectiveEnd. apply isMonthly_spec in Hm.
      now rewrite Hm, Hc. }
    destruct (totalInvested_split s l1 l2 t) as [Hwith Hwithout].
    split; [intros y month; now apply inverted_custom_never_applies|].
    split.
    { apply calculateData_skip. intros y month.
      now apply inverted_custom_never_applies. }
    split; [exact Hocc|]. split; [unfold count; lia|].
    split; [unfold count; lia|]. split; [unfold count; lia|].
    split; [now rewrite <- Hocc|exact Hwithout].
  - intros pow ops. repeat split; vm_compute; reflexivity.
Qed.

(** A positive custom monthly transaction for the years 5 to 4 of the
    default plan is inverted, its occurrence count is 0, and the total
    invested is 120000 with it as without it: it is not lowered. *)
Lemma inverted_by_one_keeps_total :
  (forall pow : Double.number -> Double.number -> Double.number,
     let _ : JSNumber Double.number := Double.JS pow in
     Transaction.type (invertedByOne (N:=Double.number)) = "monthly"
     /\ Transaction.customDuration (invertedByOne (N:=Double.number)) = true
     /\ Transaction.endYear (invertedByOne (N:=Double.number))
        < Transaction.startYear (invertedByOne (N:=Double.number))
     /\ (Transaction.amount (invertedByOne (N:=Double.number)) >? int 0)%js
        = true
     /\ occurrences 15 (invertedByOne (N:=Double.number)) = 0)
  /\ (forall pow : Double.number -> Double.number -> Double.number,
      let _ : JSNumber Double.number := Double.JS pow in
      totalInvested (withTransactions defaultState [savingsPlan; invertedByOne])
      = int 120000
      /\ totalInvested (withTransactions defaultState [savingsPlan])
         = int 120000
      /\ (totalInvested (withTransactions defaultState [savingsPlan])
          >? totalInvested
               (withTransactions defaultState [savingsPlan; invertedByOne]))%js
         = false).
Proof.
  split.
  - intros pow ops. repeat split.
  - intros pow ops. repeat split; vm_compute; reflexivity.
Qed.

End Inverted.

(** ** Total invested *)

Section TotalInvested.
Local Open Scope R_scope.
Local Abbreviation Fin := Ideal.Fin.
Implicit Types (s : State Ideal.number) (t u : Transaction.t Ideal.number).

Lemma investedStep_Fin (dur : Z) (x a : R) t :
  Transaction.amount t = Fin a ->
  investedStep dur (Fin x) t = Fin (x + a * IZR (occurrences dur t)).
Proof.
  intros Ha. unfold investedStep. now rewrite Ha, int_Fin, mul_Fin, add_Fin.
Qed.

End TotalInvested.

(** ** Rates below -100% *)

Section NotANumber.
Local Open Scope R_scope.
Local Abbreviation Fin := Ideal.Fin.
Local Abbreviation NaN := Ideal.NaN.
Implicit Types (s : State Ideal.number) (a : Acc Ideal.number) (y month : Z).

Lemma monthlyRate_NaN s y (x : R) :
  phaseRate s y = Fin x -> x < -100 -> monthlyRate s y = NaN.
Proof.
  intros Hrate Hx. unfold monthlyRate.
  rewrite Hrate, !int_Fin, !div_Fin, add_Fin by lra.
  rewrite pow_Fin_neg_twelfth; [reflexivity|].
  apply (Rmult_lt_reg_r 100); [lra|]. 
  replace ((1 + x / 100) * 100) with (100 + x) by field. lra.
Qed.

Lemma principalMonth_NaN s y month : principalMonth s y NaN month = NaN.
Proof.
  unfold principalMonth. induction (transactions s) as [|t ts IH]; [reflexivity|].
  cbn [fold_left]. destruct (applies (durationYears s) y month t); exact IH.
Qed.

(** What a NaN leaves behind: the total gains are NaN, and so is the balance
    when gains are reinvested. *)
Lemma monthStep_keeps_NaN s y a month :
  totalGains a = NaN ->
  (reinvestGains s = true -> currentBalance a = NaN) ->
  totalGains (monthStep s y a month) = NaN
  /\ (reinvestGains s = true -> currentBalance (monthStep s y a month) = NaN).
Proof.
  intros Htg Hbal. split.
  - now rewrite totalGains_monthStep, Htg.
  - intros Hre. rewrite currentBalance_monthStep, Hre. unfold compoundMonth.
    now rewrite (Hbal Hre), principalMonth_NaN.
Qed.

Lemma monthStep_makes_NaN s y a month :
  monthlyRate s y = NaN ->
  totalGains (monthStep s y a month) = NaN
  /\ yearReturns (monthStep s y a month) = NaN
  /\ (reinvestGains s = true -> currentBalance (monthStep s y a month) = NaN).
Proof.
  intros Hrate. split; [|split].
  - now rewrite totalGains_monthStep, Hrate, mul_NaN_r, add_NaN_r.
  - unfold monthStep.
    destruct (applyTransactions s y month (currentBalance a, yearDeposits a)).
    cbn [yearReturns]. now rewrite Hrate, mul_NaN_r, add_NaN_r.
  - intros Hre. rewrite currentBalance_monthStep, Hre. unfold compoundMonth.
    now rewrite Hrate, mul_NaN_r, add_NaN_r.
Qed.

Lemma months_keep_NaN s y (ms : list Z) a :
  totalGains a = NaN ->
  (reinvestGains s = true -> currentBalance a = NaN) ->
  totalGains (fold_left (monthStep s y) ms a) = NaN
  /\ (reinvestGains s = true ->
      currentBalance (fold_left (monthStep s y) ms a) = NaN).
Proof.
  revert a. induction ms as [|m ms IH]; intros a Htg Hbal; [now split|].
  cbn [fold_left].
  destruct (monthStep_keeps_NaN s y a m Htg Hbal) as [Htg' Hbal'].
  now apply IH.
Qed.

Lemma months_make_NaN s y (m : Z) (ms : list Z) a :
  monthlyRate s y = NaN ->
  totalGains (fold_left (monthStep s y) (m :: ms) a) = NaN
  /\ yearReturns (fold_left (monthStep s y) (m :: ms) a) = NaN
  /\ (reinvestGains s = true ->
      currentBalance (fold_left (monthStep s y) (m :: ms) a) = NaN).
Proof.
  intros Hrate. revert m a. induction ms as [|m' ms IH]; intros m a.
  - cbn [fold_left]. now apply monthStep_makes_NaN.
  - change (fold_left (monthStep s y) (m :: m' :: ms) a)
      with (fold_left (monthStep s y) (m' :: ms) (monthStep s y a m)).
    apply IH.
Qed.

(** Once the total gains are NaN they stay so in every later year. *)
Lemma stateAfter_keeps_NaN s (n k : nat) :
  (stateAfter s n).2 = NaN ->
  (reinvestGains s = true -> (stateAfter s n).1 = NaN) ->
  (stateAfter s (n + k)).2 = NaN
  /\ (reinvestGains s = true -> (stateAfter s (n + k)).1 = NaN).
Proof.
  intros Htg Hbal. induction k as [|k [IHtg IHbal]].
  - rewrite Nat.add_0_r. now split.
  - replace (n + S k)%nat with (S (n + k)) by lia.
    rewrite stateAfter_S, yearAcc_eq. cbn [fst snd].
    now apply months_keep_NaN.
Qed.

Lemma stateAfter_makes_NaN s (n : nat) (x : R) :
  phaseRate s (Z.of_nat (S n)) = Fin x -> x < -100 ->
  (stateAfter s (S n)).2 = NaN
  /\ (reinvestGains s = true -> (stateAfter s (S n)).1 = NaN).
Proof.
  intros Hrate Hx. rewrite stateAfter_S, yearAcc_eq. cbn [fst snd].
  pose proof (monthlyRate_NaN s _ x Hrate Hx) as Hnan.
  unfold months.
  destruct (months_make_NaN s (Z.of_nat (S n)) 1 [2; 3; 4; 5; 6; 7; 8; 9; 10; 11; 12]%Z
              {| currentBalance := (stateAfter s n).1;
                 totalGains := (stateAfter s n).2;
                 yearDeposits := int 0; yearReturns := int 0 |} Hnan)
    as (Htg & _ & Hbal).
  now split.
Qed.

(** C8, as the program has it: no result is checked for finiteness and
    nothing is reported to the caller.  In a year whose rate is below -100%
    the monthly rate is NaN, and the balance and the returns recorded for
    that year are NaN; the balance recorded for every later year is NaN as
    well. *)
Theorem nan_is_recorded s (i : nat) (r : YearResult Ideal.number) (x : R) :
  calculateData s !! i = Some r ->
  rate r = Fin x -> x < -100 ->
  monthlyRate s (Z.of_nat i + 1) = NaN
  /\ balance r = NaN
  /\ returns r = NaN
  /\ forall (j : nat) (r' : YearResult Ideal.number),
       (i <= j)%nat -> calculateData s !! j = Some r' -> balance r' = NaN.
Proof.
  intros Hr Hrate Hx. apply calculateData_lookup_inv in Hr as [_ ->].
  change (rate (resultOf s i)) with (phaseRate s (Z.of_nat (S i))) in Hrate.
  pose proof (monthlyRate_NaN s _ x Hrate Hx) as Hnan.
  destruct (stateAfter_makes_NaN s i x Hrate Hx) as [Htg Hbal].
  split; [|split; [|split]].
  - replace (Z.of_nat i + 1)%Z with (Z.of_nat (S i)) by lia. exact Hnan.
  - rewrite balance_resultOf. destruct (reinvestGains s).
    + now rewrite Hbal.
    + now rewrite Htg, add_NaN_r.
  - unfold resultOf, yearResult. cbn [returns]. rewrite yearAcc_eq. unfold months.
    destruct (months_make_NaN s (Z.of_nat (S i)) 1
                [2; 3; 4; 5; 6; 7; 8; 9; 10; 11; 12]%Z
                {| currentBalance := (stateAfter s i).1;
                   totalGains := (stateAfter s i).2;
                   yearDeposits := int 0; yearReturns := int 0 |} Hnan)
      as (_ & Hret & _).
    now rewrite Hret.
  - intros j r' Hij Hr'. apply calculateData_lookup_inv in Hr' as [_ ->].
    rewrite balance_resultOf.
    destruct (stateAfter_keeps_NaN s (S i) (j - i) Htg Hbal) as [Htg' Hbal'].
    replace (S i + (j - i))%nat with (S j) in Htg', Hbal' by lia.
    destruct (reinvestGains s).
    + now rewrite Hbal'.
    + now rewrite Htg', add_NaN_r.
Qed.

End NotANumber.

(** ** The default plan *)

Section DefaultPlan.
Local Open Scope R_scope.
Local Abbreviation Fin := Ideal.Fin.
Local Abbreviation plan := (defaultState (N:=Ideal.number)).

Lemma r_m_Fin : r_m = Fin Recurrence.r_m.
Proof.
  unfold r_m, Recurrence.r_m.
  rewrite num_Fin, !int_Fin, div_Fin, pow_Fin_pos, sub_Fin by (unfold Q2R; cbn; lra).
  reflexivity.
Qed.

Lemma depositAfterGain_Fin (b : R) :
  depositAfterGain (Fin b) = Fin (Recurrence.afterGain b).
Proof.
  unfold depositAfterGain.
  now rewrite r_m_Fin, !int_Fin, add_Fin, mul_Fin, add_Fin.
Qed.

Lemma depositBeforeGain_Fin (b : R) :
  depositBeforeGain (Fin b) = Fin (Recurrence.beforeGain b).
Proof.
  unfold depositBeforeGain.
  now rewrite r_m_Fin, !int_Fin, !add_Fin, mul_Fin.
Qed.

Lemma iter_Fin (f : Ideal.number -> Ideal.number) (g : R -> R) (n : nat) (b : R) :
  (forall x, f (Fin x) = Fin (g x)) ->
  Nat.iter n f (Fin b) = Fin (Nat.iter n g b).
Proof.
  intros Hfg. induction n as [|n IH]; [reflexivity|].
  now rewrite !Nat.iter_succ, IH, Hfg.
Qed.

Lemma phaseRate_plan (y : Z) : (1 <= y <= 15)%Z -> phaseRate plan y = int 6.
Proof.
  intros Hy. unfold phaseRate, matchingPhases.
  cbn [yieldPhases defaultState List.filter].
  assert (Hc : covers y (YieldPhase.mk 1 1 15 (int 6 : Ideal.number) false) = true).
  { apply covers_spec. cbn. lia. }
  now rewrite Hc.
Qed.

Lemma monthlyRate_plan (y : Z) :
  (1 <= y <= 15)%Z -> monthlyRate plan y = Fin Recurrence.r_m.
Proof.
  intros Hy. unfold monthlyRate, Recurrence.r_m.
  rewrite (phaseRate_plan y Hy), !int_Fin, !div_Fin, add_Fin by lra.
  rewrite pow_Fin_pos, sub_Fin by lra.
  do 2 f_equal. f_equal. lra.
Qed.

Lemma principalMonth_plan (y month : Z) (b : R) :
  (1 <= y <= 15)%Z -> principalMonth plan y (Fin b) month = Fin (b + 500).
Proof.
  intros Hy. unfold principalMonth.
  cbn [transactions durationYears defaultState fold_left].
  assert (Ha : applies 15 y month
                 (Transaction.mk 1 "Savings Plan" (int 500 : Ideal.number)
                    "monthly" 1 15 false) = true).
  { unfold applies, isActive, effectiveEnd, isMonthly.
    cbn [Transaction.type Transaction.customDuration Transaction.startYear
         String.eqb Ascii.eqb Bool.eqb negb andb orb].
    apply andb_true_iff. split; [|reflexivity].
    apply andb_true_iff. rewrite Z.geb_le, Z.leb_le. lia. }
  rewrite Ha. cbn [Transaction.amount]. now rewrite int_Fin, add_Fin.
Qed.

Lemma compoundMonth_plan (y month : Z) (b : R) :
  (1 <= y <= 15)%Z ->
  compoundMonth plan y (Fin b) month = Fin (Recurrence.beforeGain b).
Proof.
  intros Hy. unfold compoundMonth.
  rewrite (principalMonth_plan y month b Hy), (monthlyRate_plan y Hy).
  rewrite mul_Fin, add_Fin. f_equal. unfold Recurrence.beforeGain. ring.
Qed.

Lemma compoundYear_plan (y : Z) (ms : list Z) (b : R) :
  (1 <= y <= 15)%Z ->
  fold_left (compoundMonth plan y) ms (Fin b)
  = Fin (Nat.iter (length ms) Recurrence.beforeGain b).
Proof.
  intros Hy. revert b. induction ms as [|m ms IH]; intros b; [reflexivity|].
  cbn [fold_left length]. rewrite (compoundMonth_plan y m b Hy), IH.
  now rewrite Nat.iter_succ_r.
Qed.

Lemma compoundAfter_plan (n : nat) :
  (n <= 15)%nat ->
  compoundAfter plan n = Fin (Nat.iter (12 * n) Recurrence.beforeGain 30000).
Proof.
  induction n as [|n IH]; intros Hn.
  - cbn [compoundAfter initialCapital defaultState]. now rewrite int_Fin.
  - cbn [compoundAfter]. rewrite IH, compoundYear_plan by lia.
    replace (12 * S n)%nat with (length months + 12 * n)%nat
      by (cbn [length months]; lia).
    now rewrite Nat.iter_add.
Qed.

Lemma balance_plan_15 :
  balance <$> (calculateData plan !! 14%nat)
  = Some (Fin (IZR (Int_part
       (Nat.iter 180 Recurrence.beforeGain 30000 + / 2)))).
Proof.
  rewrite calculateData_lookup by (cbn; lia).
  cbn [fmap option_fmap option_map]. f_equal.
  rewrite balance_resultOf. cbn [reinvestGains defaultState].
  rewrite stateAfter_compound by reflexivity.
  rewrite compoundAfter_plan by lia.
  rewrite round_Fin. reflexivity.
Qed.

End DefaultPlan.

Section DefaultPlanGap.
Local Open Scope R_scope.
Local Abbreviation Fin := Ideal.Fin.
Local Abbreviation plan := (defaultState (N:=Ideal.number)).

(** Twelve monthly steps make the annual 6%. *)
Lemma twelve_months_make_a_year : (1 + Recurrence.r_m) ^ 12 = 106 / 100.
Proof.
  unfold Recurrence.r_m.
  replace (1 + (Rpower (106 / 100) (1 / 12) - 1))
    with (Rpower (106 / 100) (1 / 12)) by lra.
  rewrite <- Rpower_pow by apply exp_pos.
  rewrite Rpower_mult.
  replace (1 / 12 * INR 12) with 1 by (cbn [INR]; lra).
  apply Rpower_1. lra.
Qed.

(** Depositing before the gain is ahead by the gain on every deposit. *)
Lemma beforeGain_ahead (n : nat) (b : R) :
  Nat.iter n Recurrence.beforeGain b
  = Nat.iter n Recurrence.afterGain b + 500 * ((1 + Recurrence.r_m) ^ n - 1).
Proof.
  induction n as [|n IH].
  - cbn [Nat.iter nat_rect pow]. lra.
  - rewrite !Nat.iter_succ, IH. unfold Recurrence.beforeGain, Recurrence.afterGain.
    cbn [pow]. ring.
Qed.

Lemma beforeGain_ahead_180 :
  Nat.iter 180 Recurrence.afterGain 30000 + 1
  <= Nat.iter 180 Recurrence.beforeGain 30000.
Proof.
  rewrite beforeGain_ahead.
  change 180%nat with (12 * 15)%nat at 3.
  rewrite pow_mult, twelve_months_make_a_year.
  assert (H1 : (106 / 100) ^ 1 <= (106 / 100) ^ 15)
    by (apply Rle_pow; [lra|lia]).
  rewrite pow_1 in H1. lra.
Qed.

(** C1, as the program has it: for the default plan (30000 at start, 6% for
    years 1-15, 500 a month for years 1-15, gains reinvested, 15 years) the
    balance recorded for year 15 is the rounded result of 180 steps of
    [balance_m = (balance_{m-1} + 500) * (1 + r_m)] from 30000, with
    [r_m = 1.06^(1/12) - 1]: the deposit of a month is added before the gain
    of that month is computed, and earns it too. *)
Theorem default_plan_deposit_before_gain :
  balance <$> (calculateData plan !! 14%nat)
  = Some (Math_round (Nat.iter 180 depositBeforeGain (int 30000))).
Proof.
  rewrite balance_plan_15, int_Fin.
  rewrite (iter_Fin depositBeforeGain Recurrence.beforeGain)
    by apply depositBeforeGain_Fin.
  now rewrite round_Fin.
Qed.

(** The recurrence with the deposit after the gain gives another balance
    for year 15. *)
Lemma default_plan_not_deposit_after_gain :
  balance <$> (calculateData plan !! 14%nat)
  <> Some (Math_round (Nat.iter 180 depositAfterGain (int 30000))).
Proof.
  rewrite balance_plan_15, int_Fin.
  rewrite (iter_Fin depositAfterGain Recurrence.afterGain)
    by apply depositAfterGain_Fin.
  rewrite round_Fin. intros Heq.
  injection Heq as Heq. apply eq_IZR in Heq.
  symmetry in Heq. revert Heq. apply Int_part_apart.
  apply beforeGain_ahead_180.
Qed.

End DefaultPlanGap.

(** ** The properties on sample plans *)

Section Samples.
Local Open Scope R_scope.
Local Abbreviation Fin := Ideal.Fin.
Local Abbreviation NaN := Ideal.NaN.
Local Abbreviation number := Ideal.number.

(** With an annual rate of -200% the one year of the plan is recorded, and
    its balance is NaN. *)
Lemma negative_rate_records_NaN :
  length (calculateData (negativeRateState (N:=number))) = 1%nat
  /\ balance <$> (calculateData (negativeRateState (N:=number)) !! 0%nat)
     = Some NaN.
Proof.
  split; [reflexivity|].
  rewrite calculateData_lookup by (cbn; lia).
  cbn [fmap option_fmap option_map]. f_equal.
  rewrite balance_resultOf. cbn [reinvestGains negativeRateState].
  assert (Hrate : phaseRate (negativeRateState (N:=number)) (Z.of_nat 1)
                  = Fin (-200)) by apply int_Fin.
  destruct (stateAfter_makes_NaN _ 0 (-200) Hrate ltac:(lra)) as [_ Hbal].
  now rewrite Hbal.
Qed.

(** A transaction of type "weekly" is not rejected: the year is simulated
    as without it, and its amount is counted once in the total invested. *)
Lemma weekly_transaction_not_rejected :
  calculateData (withTransactions (plainState (N:=number)) [weeklyBonus])
  = calculateData (withTransactions plainState [])
  /\ length (calculateData (withTransactions (plainState (N:=number)) [weeklyBonus]))
     = 1%nat
  /\ totalInvested (withTransactions (plainState (N:=number)) [weeklyBonus])
     = Fin 30500.
Proof.
  split; [|split].
  - apply (calculateData_skip plainState [] [] weeklyBonus).
    intros y month. now apply unknown_type_never_applies.
  - reflexivity.
  - unfold totalInvested.
    cbn [initialCapital durationYears transactions withTransactions plainState
         fold_left].
    rewrite !int_Fin.
    rewrite (investedStep_Fin 1 0 500 weeklyBonus) by apply int_Fin.
    rewrite add_Fin. f_equal.
    change (occurrences 1 (weeklyBonus (N:=number))) with 1%Z. lra.
Qed.

(** The resolvers on the sample plans. *)
Example phaseRate_overlap :
  phaseRate (overlapState (N:=number)) 4 = int 6
  /\ phaseRate (overlapState (N:=number)) 5 = int 3
  /\ phaseRate (overlapState (N:=number)) 11 = int 0.
Proof. repeat split. Qed.

Example isActive_samples :
  map (fun y => isActive 15 y (savingsPlan (N:=number))) [0; 1; 15; 16]%Z
  = [false; true; true; false]
  /\ map (fun y => isActive 15 y (oneTimeDeposit (N:=number))) [2; 3; 4]%Z
     = [false; true; false]
  /\ map (fun y => isActive 15 y (invertedByOne (N:=number))) [3; 4; 5; 6]%Z
     = [false; false; false; false]
  /\ map (fun y => isActive 15 y (weeklyBonus (N:=number))) [0; 1; 2]%Z
     = [false; true; false].
Proof. repeat split. Qed.

Example occurrences_samples :
  occurrences 15 (savingsPlan (N:=number)) = 180%Z
  /\ occurrences 15 (oneTimeDeposit (N:=number)) = 1%Z
  /\ occurrences 15 (weeklyBonus (N:=number)) = 1%Z
  /\ occurrences 15 (invertedByOne (N:=number)) = 0%Z
  /\ occurrences 15 (invertedByTwo (N:=number)) = (-12)%Z.
Proof. repeat split. Qed.

Lemma calculateData_years_witness :
  (1 <= durationYears (defaultState (N:=number)))%Z
  /\ map year (calculateData (defaultState (N:=number))) = seqZ 1 15.
Proof.
  split; [cbn; lia|].
  apply (calculateData_years (defaultState (N:=number))). cbn. lia.
Defined.

Lemma balance_by_reinvestment_policy_witness :
  calculateData (defaultState (N:=number)) !! 14%nat
  = Some (resultOf defaultState 14)
  /\ balance (resultOf (defaultState (N:=number)) 14)
     = Math_round (compoundAfter defaultState 15).
Proof.
  assert (Hr : calculateData (defaultState (N:=number)) !! 14%nat
               = Some (resultOf defaultState 14))
    by (apply calculateData_lookup; cbn; lia).
  split; [exact Hr|].
  apply (balance_by_reinvestment_policy defaultState 14 _ Hr). reflexivity.
Defined.

Lemma rate_of_last_covering_phase_witness :
  calculateData (overlapState (N:=number)) !! 4%nat
  = Some (resultOf overlapState 4)
  /\ rate (resultOf (overlapState (N:=number)) 4) = int 3.
Proof.
  assert (Hr : calculateData (overlapState (N:=number)) !! 4%nat
               = Some (resultOf overlapState 4))
    by (apply calculateData_lookup; cbn; lia).
  split; [exact Hr|].
  apply (proj1 (rate_of_last_covering_phase overlapState 4 _ Hr)
           [YieldPhase.mk 1 1 10 (int 6) false]
           (YieldPhase.mk 2 5 5 (int 3) true) []).
  - reflexivity.
  - cbn. lia.
  - intros q [].
Defined.

Lemma transaction_activity_witness :
  calculateData
    (withTransactions (defaultState (N:=number)) [savingsPlan; oneTimeDeposit])
    !! 2%nat
  = Some (resultOf
            (withTransactions defaultState [savingsPlan; oneTimeDeposit]) 2)
  /\ monthsApplied 15 3 (savingsPlan (N:=number)) = months
  /\ monthsApplied 15 3 (oneTimeDeposit (N:=number)) = [1%Z]
  /\ deposits
       (resultOf
          (withTransactions (defaultState (N:=number))
             [savingsPlan; oneTimeDeposit]) 2)
     = Math_round
         (fold_left
            (principalMonth
               (withTransactions defaultState [savingsPlan; oneTimeDeposit])
               (Z.of_nat 2 + 1))
            months (int 0)).
Proof.
  assert (Hr : calculateData
                 (withTransactions (defaultState (N:=number))
                    [savingsPlan; oneTimeDeposit]) !! 2%nat
               = Some (resultOf
                         (withTransactions defaultState
                            [savingsPlan; oneTimeDeposit]) 2))
    by (apply calculateData_lookup; cbn; lia).
  split; [exact Hr|].
  pose proof (transaction_activity
                (withTransactions (defaultState (N:=number))
                   [savingsPlan; oneTimeDeposit]) 2 _ Hr) as Hall.
  split; [|split].
  - exact (proj2 (proj2 (proj1 (proj2 (proj2 (proj1 Hall 15%Z 3%Z savingsPlan)))
                           eq_refl))).
  - exact (proj2 (proj2 (proj1 (proj2 (proj2 (proj2
                                                (proj1 Hall 15%Z 3%Z oneTimeDeposit))))
                           eq_refl))).
  - exact (proj1 (proj2 (proj2 (proj2 Hall)))).
Defined.

Lemma nan_is_recorded_witness :
  calculateData (negativeRateState (N:=number)) !! 0%nat
  = Some (resultOf negativeRateState 0)
  /\ rate (resultOf (negativeRateState (N:=number)) 0) = Fin (-200)
  /\ -200 < -100
  /\ balance (resultOf (negativeRateState (N:=number)) 0) = NaN.
Proof.
  assert (Hr : calculateData (negativeRateState (N:=number)) !! 0%nat
               = Some (resultOf negativeRateState 0))
    by (apply calculateData_lookup; cbn; lia).
  assert (Hrate : rate (resultOf (negativeRateState (N:=number)) 0) = Fin (-200))
    by apply int_Fin.
  assert (Hx : -200 < -100) by lra.
  split; [exact Hr|]. split; [exact Hrate|]. split; [exact Hx|].
  exact (proj1 (proj2 (nan_is_recorded negativeRateState 0 _ (-200) Hr Hrate Hx))).
Defined.

Lemma unknown_type_is_skipped_witness :
  Transaction.type (weeklyBonus (N:=number)) <> "monthly"
  /\ Transaction.type (weeklyBonus (N:=number)) <> "once"
  /\ calculateData (withTransactions (plainState (N:=number)) ([] ++ weeklyBonus :: []))
     = calculateData (withTransactions plainState ([] ++ [])).
Proof.
  split; [discriminate|]. split; [discriminate|].
  refine (proj1 (unknown_type_is_skipped plainState [] [] weeklyBonus _ _));
    discriminate.
Defined.

Lemma inverted_custom_monthly_witness :
  (Transaction.endYear (invertedByTwo (N:=number))
   < Transaction.startYear (invertedByTwo (N:=number)))%Z
  /\ (1 <= Transaction.startYear (invertedByTwo (N:=number))
      <= durationYears (defaultState (N:=number)))%Z
  /\ calculateData
       (withTransactions (defaultState (N:=number))
          ([savingsPlan] ++ invertedByTwo :: []))
     = calculateData (withTransactions defaultState ([savingsPlan] ++ [])).
Proof.
  split; [cbn; lia|]. split; [cbn; lia|].
  refine (proj1 (proj2 (proj1 inverted_custom_monthly number _ defaultState
                          [savingsPlan] [] invertedByTwo _ _ _))).
  - reflexivity.
  - reflexivity.
  - cbn. lia.
Defined.

End Samples.

(** * More of the component *)

(** ** Changing the duration *)

Section DurationChange.
Context {N : Type} `{JSNumber N}.
Implicit Types (s : State N) (t : Transaction.t N) (p : YieldPhase.t N)
  (y month dur : Z).

Lemma monthStep_agree s1 s2 y (a : Acc N) month :
  reinvestGains s1 = reinvestGains s2 ->
  phaseRate s1 y = phaseRate s2 y ->
  (forall st, applyTransactions s1 y month st = applyTransactions s2 y month st) ->
  monthStep s1 y a month = monthStep s2 y a month.
Proof.
  intros Hre Hrate Happ. unfold monthStep, monthlyRate.
  now rewrite Happ, Hre, Hrate.
Qed.

Lemma yearAcc_agree s1 s2 y (bal tg : N) :
  reinvestGains s1 = reinvestGains s2 ->
  phaseRate s1 y = phaseRate s2 y ->
  (forall month st,
     applyTransactions s1 y month st = applyTransactions s2 y month st) ->
  yearAcc s1 y bal tg = yearAcc s2 y bal tg.
Proof.
  intros Hre Hrate Happ. rewrite !yearAcc_eq.
  generalize months as ms. intros ms.
  generalize {| currentBalance := bal; totalGains := tg;
                yearDeposits := int 0; yearReturns := int 0 |} as a.
  induction ms as [|m ms IH]; intros a; [reflexivity|].
  cbn [fold_left]. rewrite (monthStep_agree s1 s2) by auto. apply IH.
Qed.

(** Two states that resolve the years [1..Y] alike have the same entries
    for these years. *)
Lemma calculateData_agree s1 s2 (Y : Z) :
  initialCapital s1 = initialCapital s2 ->
  reinvestGains s1 = reinvestGains s2 ->
  (forall y, 1 <= y <= Y ->
     phaseRate s1 y = phaseRate s2 y
     /\ forall month st,
          applyTransactions s1 y month st = applyTransactions s2 y month st) ->
  forall i : nat,
    Z.of_nat i < Y ->
    Z.of_nat i < durationYears s1 -> Z.of_nat i < durationYears s2 ->
    calculateData s1 !! i = calculateData s2 !! i.
Proof.
  intros Hic Hre Hyears i HiY Hi1 Hi2.
  rewrite !calculateData_lookup by lia. f_equal.
  assert (Hst : forall n : nat, Z.of_nat n <= Y ->
                  stateAfter s1 n = stateAfter s2 n).
  { induction n as [|n IH]; intros Hn.
    - cbn [stateAfter]. now rewrite Hic.
    - rewrite !stateAfter_S, IH by lia.
      destruct (Hyears (Z.of_nat (S n)) ltac:(lia)) as [Hrate Happ].
      now rewrite (yearAcc_agree s1 s2) by auto. }
  destruct (Hyears (Z.of_nat (S i)) ltac:(lia)) as [Hrate Happ].
  unfold resultOf, yearResult.
  rewrite Hst by lia. rewrite (yearAcc_agree s1 s2) by auto.
  now rewrite Hre, Hrate.
Qed.

Lemma isActive_within y dur1 dur2 t :
  y <= dur1 -> y <= dur2 -> isActive dur1 y t = isActive dur2 y t.
Proof.
  intros H1 H2. unfold isActive, effectiveEnd.
  destruct (isMonthly t); [|reflexivity].
  destruct (Transaction.customDuration t); cbn [negb andb]; [reflexivity|].
  rewrite (proj2 (Z.leb_le y dur1) H1), (proj2 (Z.leb_le y dur2) H2).
  reflexivity.
Qed.

Lemma applyTransaction_within y dur1 dur2 month (st : N * N) t :
  y <= dur1 -> y <= dur2 ->
  applyTransaction dur1 y month st t = applyTransaction dur2 y month st t.
Proof.
  intros H1 H2. unfold applyTransaction.
  now rewrite (isActive_within y dur1 dur2 t H1 H2).
Qed.

(** The watcher's change of a transaction is not seen in the years up to
    the old duration. *)
Lemma applyTransaction_extend y newVal oldVal month (st : N * N) t :
  y <= oldVal -> oldVal <= newVal ->
  applyTransaction newVal y month st (extendTransaction newVal oldVal t)
  = applyTransaction oldVal y month st t.
Proof.
  intros Hy Hgrow. unfold extendTransaction.
  destruct (isMonthly t) eqn:Hm; cbn [andb].
  - destruct (Transaction.customDuration t) eqn:Hc; cbn [negb].
    + destruct (Z.eqb_spec (Transaction.endYear t) oldVal) as [He|He].
      * unfold applyTransaction, isActive, effectiveEnd, isMonthly, isOnce.
        cbn [Transaction.type Transaction.customDuration Transaction.startYear
             Transaction.endYear Transaction.amount].
        unfold isMonthly in Hm. rewrite Hm, Hc. cbn [negb andb].
        rewrite He.
        rewrite (proj2 (Z.leb_le y newVal)), (proj2 (Z.leb_le y oldVal)) by lia.
        reflexivity.
      * apply applyTransaction_within; lia.
    + unfold applyTransaction, isActive, effectiveEnd, isMonthly, isOnce.
      cbn [Transaction.type Transaction.customDuration Transaction.startYear
           Transaction.endYear Transaction.amount].
      unfold isMonthly in Hm. rewrite Hm, Hc. cbn [negb andb].
      rewrite (proj2 (Z.leb_le y newVal)), (proj2 (Z.leb_le y oldVal)) by lia.
      reflexivity.
  - apply applyTransaction_within; lia.
Qed.

Lemma covers_extend y newVal oldVal p :
  1 <= y <= oldVal -> oldVal <= newVal ->
  (YieldPhase.customDuration p = false ->
   YieldPhase.startYear p = 1 /\ oldVal <= YieldPhase.endYear p) ->
  covers y (extendPhase newVal oldVal p) = covers y p
  /\ YieldPhase.rate (extendPhase newVal oldVal p) = YieldPhase.rate p.
Proof.
  intros Hy Hgrow Hinv. unfold extendPhase.
  destruct (YieldPhase.customDuration p) eqn:Hc; cbn [negb].
  - destruct (Z.eqb_spec (YieldPhase.endYear p) oldVal) as [He|He];
      [|split; reflexivity].
    split; [|reflexivity]. unfold covers.
    cbn [YieldPhase.startYear YieldPhase.endYear]. rewrite He.
    rewrite (proj2 (Z.leb_le y newVal)), (proj2 (Z.leb_le y oldVal)) by lia.
    reflexivity.
  - destruct (Hinv eq_refl) as [Hstart Hend]. split; [|reflexivity].
    unfold covers. cbn [YieldPhase.startYear YieldPhase.endYear].
    rewrite Hstart.
    rewrite (proj2 (Z.leb_le y newVal)), (proj2 (Z.leb_le y (YieldPhase.endYear p)))
      by lia.
    reflexivity.
Qed.

Lemma last_filter_map (f : YieldPhase.t N -> YieldPhase.t N) y
    (l : list (YieldPhase.t N)) :
  Forall (fun p => covers y (f p) = covers y p
                   /\ YieldPhase.rate (f p) = YieldPhase.rate p) l ->
  YieldPhase.rate <$> last (List.filter (covers y) (map f l))
  = YieldPhase.rate <$> last (List.filter (covers y) l).
Proof.
  induction l as [|p l IH] using rev_ind; intros Hl; [reflexivity|].
  apply Forall_app in Hl as [Hl Hp]. apply Forall_cons in Hp as [[Hc Hr] _].
  rewrite map_app, !List.filter_app. cbn [map List.filter]. rewrite Hc.
  destruct (covers y p).
  - rewrite !last_snoc. cbn [fmap option_fmap option_map]. now rewrite Hr.
  - rewrite !app_nil_r. now apply IH.
Qed.

Lemma phaseRate_of_last s y :
  phaseRate s y
  = match YieldPhase.rate <$> last (matchingPhases s y) with
    | Some x => x
    | None => int 0
    end.
Proof. unfold phaseRate. now destruct (last (matchingPhases s y)). Qed.

(** X6: changing the duration keeps the years already simulated.  After a
    shorter duration is set, the entries of the years that remain are the
    ones computed before.  After a longer one is set and the watcher has
    extended phases and transactions, the entries of the years up to the
    old duration are the ones computed before, provided every phase without
    a custom period started in year 1 and reached the old duration. *)
Theorem duration_change_keeps_earlier_years s (newVal : Z) (i : nat) :
  Z.of_nat i < newVal -> Z.of_nat i < durationYears s ->
  (durationYears s < newVal ->
   Forall (fun p => YieldPhase.customDuration p = false ->
                    YieldPhase.startYear p = 1
                    /\ durationYears s <= YieldPhase.endYear p)
     (yieldPhases s)) ->
  calculateData (setDurationYears newVal s) !! i = calculateData s !! i.
Proof.
  intros Hnew Hold Hinv. unfold setDurationYears, onDurationChange.
  cbn [durationYears initialCapital reinvestGains yieldPhases transactions].
  destruct (Z.gtb_spec newVal (durationYears s)) as [Hgrow|Hshrink].
  - apply (calculateData_agree _ s (durationYears s));
      cbn [durationYears initialCapital reinvestGains]; try reflexivity; try lia.
    intros y Hy. split.
    + rewrite !phaseRate_of_last. unfold matchingPhases. cbn [yieldPhases].
      rewrite last_filter_map; [reflexivity|].
      specialize (Hinv Hgrow). rewrite Forall_forall in Hinv |- *.
      intros p Hp. apply covers_extend; [lia|lia|]. now apply Hinv.
    + intros month st. unfold applyTransactions.
      cbn [durationYears transactions]. revert st.
      induction (transactions s) as [|t ts IH]; intros st; [reflexivity|].
      cbn [map fold_left].
      rewrite applyTransaction_extend by lia. apply IH.
  - apply (calculateData_agree _ s newVal);
      cbn [durationYears initialCapital reinvestGains]; try reflexivity; try lia.
    intros y Hy. split; [reflexivity|].
    intros month st. unfold applyTransactions. cbn [durationYears transactions].
    revert st. induction (transactions s) as [|t ts IH]; intros st; [reflexivity|].
    cbn [fold_left].
    rewrite (applyTransaction_within y newVal (durationYears s)) by lia.
    apply IH.
Qed.

End DurationChange.

Section Watcher.
Context {N : Type} `{JSNumber N}.
Implicit Types (s : State N) (t : Transaction.t N) (p : YieldPhase.t N).

Lemma setDurationYears_grow s (newVal : Z) :
  durationYears s < newVal ->
  setDurationYears newVal s
  = {| initialCapital := initialCapital s;
       durationYears := newVal;
       reinvestGains := reinvestGains s;
       yieldPhases := map (extendPhase newVal (durationYears s)) (yieldPhases s);
       transactions :=
         map (extendTransaction newVal (durationYears s)) (transactions s) |}.
Proof.
  intros Hgrow. unfold setDurationYears, onDurationChange.
  now rewrite (proj2 (Z.gtb_lt newVal (durationYears s))) by lia.
Qed.

Lemma setDurationYears_shrink s (newVal : Z) :
  newVal <= durationYears s ->
  setDurationYears newVal s
  = {| initialCapital := initialCapital s;
       durationYears := newVal;
       reinvestGains := reinvestGains s;
       yieldPhases := yieldPhases s;
       transactions := transactions s |}.
Proof.
  intros Hshrink. unfold setDurationYears, onDurationChange.
  destruct (Z.gtb_spec newVal (durationYears s)); [lia|reflexivity].
Qed.

(** X7: what the watcher does to the periods.  When the duration grows,
    the phases and the transactions keep their places, and each is changed
    by itself: a phase without a custom period then spans [1..newVal]; a
    custom phase that ended in the old last year ends in [newVal]; any
    other custom phase is kept.  A monthly transaction without a custom
    period, and a custom monthly one that ended in the old last year, ends
    in [newVal]; any other transaction is kept.  Identifiers, rates,
    amounts, names, types, the start years of transactions and the custom
    flags are never changed.  When the duration does not grow, phases and
    transactions are left as they are: nothing is cut back to the shorter
    horizon. *)
Theorem watcher_extends_periods s (newVal : Z) :
  (durationYears s < newVal ->
   let s' := setDurationYears newVal s in
   durationYears s' = newVal
   /\ initialCapital s' = initialCapital s
   /\ reinvestGains s' = reinvestGains s
   /\ length (yieldPhases s') = length (yieldPhases s)
   /\ length (transactions s') = length (transactions s)
   /\ (forall (i : nat) p,
         yieldPhases s !! i = Some p ->
         exists p',
           yieldPhases s' !! i = Some p'
           /\ YieldPhase.id p' = YieldPhase.id p
           /\ YieldPhase.rate p' = YieldPhase.rate p
           /\ YieldPhase.customDuration p' = YieldPhase.customDuration p
           /\ (YieldPhase.customDuration p = false ->
               YieldPhase.startYear p' = 1 /\ YieldPhase.endYear p' = newVal)
           /\ (YieldPhase.customDuration p = true ->
               YieldPhase.endYear p = durationYears s ->
               YieldPhase.startYear p' = YieldPhase.startYear p
               /\ YieldPhase.endYear p' = newVal)
           /\ (YieldPhase.customDuration p = true ->
               YieldPhase.endYear p <> durationYears s ->
               p' = p))
   /\ (forall (i : nat) t,
         transactions s !! i = Some t ->
         exists t',
           transactions s' !! i = Some t'
           /\ Transaction.id t' = Transaction.id t
           /\ Transaction.name t' = Transaction.name t
           /\ Transaction.amount t' = Transaction.amount t
           /\ Transaction.type t' = Transaction.type t
           /\ Transaction.startYear t' = Transaction.startYear t
           /\ Transaction.customDuration t' = Transaction.customDuration t
           /\ (Transaction.type t = "monthly" ->
               Transaction.customDuration t = false ->
               Transaction.endYear t' = newVal)
           /\ (Transaction.type t = "monthly" ->
               Transaction.customDuration t = true ->
               Transaction.endYear t = durationYears s ->
               Transaction.endYear t' = newVal)
           /\ (Transaction.type t = "monthly" ->
               Transaction.customDuration t = true ->
               Transaction.endYear t <> durationYears s ->
               t' = t)
           /\ (Transaction.type t <> "monthly" -> t' = t))
   /\ (Forall (fun p => 1 <= YieldPhase.startYear p <= YieldPhase.endYear p
                        /\ YieldPhase.endYear p <= durationYears s)
         (yieldPhases s) ->
       Forall (fun p => 1 <= YieldPhase.startYear p <= YieldPhase.endYear p
                        /\ YieldPhase.endYear p <= newVal)
         (yieldPhases s')))
  /\ (newVal <= durationYears s ->
      yieldPhases (setDurationYears newVal s) = yieldPhases s
      /\ transactions (setDurationYears newVal s) = transactions s
      /\ initialCapital (setDurationYears newVal s) = initialCapital s
      /\ reinvestGains (setDurationYears newVal s) = reinvestGains s
      /\ durationYears (setDurationYears newVal s) = newVal).
Proof.
  split.
  - intros Hgrow s'. unfold s'. rewrite (setDurationYears_grow s newVal Hgrow).
    cbn [durationYears yieldPhases transactions initialCapital reinvestGains].
    split; [reflexivity|]. split; [reflexivity|]. split; [reflexivity|].
    split; [apply length_map|]. split; [apply length_map|].
    split; [|split].
    + intros i p Hp.
      exists (extendPhase newVal (durationYears s) p).
      split; [now rewrite list_lookup_fmap, Hp|].
      unfold extendPhase.
      destruct (YieldPhase.customDuration p) eqn:Hc; cbn [negb].
      * destruct (Z.eqb_spec (YieldPhase.endYear p) (durationYears s))
          as [He|He];
          cbn [YieldPhase.id YieldPhase.rate YieldPhase.customDuration
               YieldPhase.startYear YieldPhase.endYear];
          repeat split; try congruence; try reflexivity.
      * cbn [YieldPhase.id YieldPhase.rate YieldPhase.customDuration
             YieldPhase.startYear YieldPhase.endYear].
        repeat split; try congruence; try reflexivity.
    + intros i t Ht.
      exists (extendTransaction newVal (durationYears s) t).
      split; [now rewrite list_lookup_fmap, Ht|].
      unfold extendTransaction.
      destruct (isMonthly t) eqn:Hm; cbn [andb].
      * destruct (Transaction.customDuration t) eqn:Hc; cbn [negb].
        -- destruct (Z.eqb_spec (Transaction.endYear t) (durationYears s))
             as [He|He];
             cbn [Transaction.id Transaction.name Transaction.amount
                  Transaction.type Transaction.startYear
                  Transaction.customDuration Transaction.endYear];
             repeat split; try congruence; try reflexivity.
           intros Hty. apply isMonthly_spec in Hm. congruence.
        -- cbn [Transaction.id Transaction.name Transaction.amount
                Transaction.type Transaction.startYear
                Transaction.customDuration Transaction.endYear].
           repeat split; try congruence; try reflexivity.
           intros Hty. apply isMonthly_spec in Hm. congruence.
      * repeat split; try reflexivity;
          intros Hty; apply isMonthly_spec in Hty; congruence.
    + intros Hwf. apply Forall_map. apply Forall_forall. intros p Hp.
      rewrite Forall_forall in Hwf. specialize (Hwf p Hp). cbn beta.
      unfold compose, extendPhase.
      destruct (YieldPhase.customDuration p); cbn [negb].
      * destruct (Z.eqb_spec (YieldPhase.endYear p) (durationYears s));
          cbn [YieldPhase.startYear YieldPhase.endYear]; lia.
      * cbn [YieldPhase.startYear YieldPhase.endYear]. lia.
  - intros Hshrink. now rewrite (setDurationYears_shrink s newVal Hshrink).
Qed.

(** X8: switching the custom period of an item.  Switching it off resets
    the item to the whole horizon: a phase then covers exactly the years
    [1..dur], a monthly transaction is active in exactly those years and
    counted [12 * dur] times.  Switching it on keeps the years.  Switching
    twice keeps the flag and leaves the period [1..dur]: a custom period is
    not brought back. *)
Theorem toggleCustomDuration_resets_period (dur : Z) p t :
  (YieldPhase.customDuration p = true ->
   forall y, covers y (toggleCustomDurationPhase dur p) = true <-> 1 <= y <= dur)
  /\ (YieldPhase.customDuration p = false ->
      toggleCustomDurationPhase dur p
      = YieldPhase.mk (YieldPhase.id p) (YieldPhase.startYear p)
          (YieldPhase.endYear p) (YieldPhase.rate p) true)
  /\ toggleCustomDurationPhase dur (toggleCustomDurationPhase dur p)
     = YieldPhase.mk (YieldPhase.id p) 1 dur (YieldPhase.rate p)
         (YieldPhase.customDuration p)
  /\ (Transaction.customDuration t = true -> Transaction.type t = "monthly" ->
      (forall y, isActive dur y (toggleCustomDurationTransaction dur t) = true
                 <-> 1 <= y <= dur)
      /\ occurrences dur (toggleCustomDurationTransaction dur t) = dur * 12)
  /\ (Transaction.customDuration t = false ->
      toggleCustomDurationTransaction dur t
      = Transaction.mk (Transaction.id t) (Transaction.name t)
          (Transaction.amount t) (Transaction.type t)
          (Transaction.startYear t) (Transaction.endYear t) true)
  /\ toggleCustomDurationTransaction dur (toggleCustomDurationTransaction dur t)
     = Transaction.mk (Transaction.id t) (Transaction.name t)
         (Transaction.amount t) (Transaction.type t) 1 dur
         (Transaction.customDuration t).
Proof.
  split; [|split; [|split; [|split; [|split]]]].
  - intros Hc y. unfold toggleCustomDurationPhase. rewrite Hc. cbn [negb].
    rewrite covers_spec. cbn [YieldPhase.startYear YieldPhase.endYear]. lia.
  - intros Hc. unfold toggleCustomDurationPhase. now rewrite Hc.
  - unfold toggleCustomDurationPhase.
    now destruct (YieldPhase.customDuration p).
  - intros Hc Hm. apply isMonthly_spec in Hm. unfold isMonthly in Hm.
    unfold toggleCustomDurationTransaction. rewrite Hc. cbn [negb]. split.
    + intros y. unfold isActive, effectiveEnd, isMonthly.
      cbn [Transaction.type Transaction.customDuration Transaction.startYear
           Transaction.endYear].
      rewrite Hm. cbn [negb andb].
      rewrite andb_true_iff, Z.geb_le, Z.leb_le. lia.
    + unfold occurrences, effectiveEnd, isMonthly.
      cbn [Transaction.type Transaction.customDuration Transaction.startYear
           Transaction.endYear].
      rewrite Hm. cbn [negb andb]. lia.
  - intros Hc. unfold toggleCustomDurationTransaction. now rewrite Hc.
  - unfold toggleCustomDurationTransaction.
    now destruct (Transaction.customDuration t).
Qed.

End Watcher.

(** ** Adding and removing *)

Section AddRemove.
Context {N : Type} `{JSNumber N}.
Implicit Types (s : State N) (t : Transaction.t N) (p : YieldPhase.t N).

Lemma filter_all {A} (f : A -> bool) (l : list A) :
  Forall (fun x => f x = true) l -> List.filter f l = l.
Proof.
  induction 1 as [|x l Hx _ IH]; [reflexivity|].
  cbn [List.filter]. now rewrite Hx, IH.
Qed.

(** X9: a phase that is added overrides all others.  [addPhase] appends a
    5% phase over the whole horizon and keeps everything else, and because
    the last matching phase wins, every year of the simulation then has the
    rate 5, whatever the phases before it say. *)
Theorem addPhase_overrides_every_year s (now : Z) :
  yieldPhases (addPhase now s)
  = yieldPhases s ++ [YieldPhase.mk now 1 (durationYears s) (int 5) false]
  /\ transactions (addPhase now s) = transactions s
  /\ durationYears (addPhase now s) = durationYears s
  /\ (forall y, 1 <= y <= durationYears s -> phaseRate (addPhase now s) y = int 5)
  /\ forall (i : nat) (r : YearResult N),
       calculateData (addPhase now s) !! i = Some r -> rate r = int 5.
Proof.
  assert (Hrate : forall y, 1 <= y <= durationYears s ->
                    phaseRate (addPhase now s) y = int 5).
  { intros y Hy. unfold phaseRate, matchingPhases, addPhase.
    cbn [yieldPhases withYieldPhases].
    rewrite (last_filter_split _ (yieldPhases s) []
               (YieldPhase.mk now 1 (durationYears s) (int 5) false)).
    - reflexivity.
    - apply covers_spec. cbn [YieldPhase.startYear YieldPhase.endYear]. lia.
    - intros q []. }
  split; [reflexivity|]. split; [reflexivity|]. split; [reflexivity|].
  split; [exact Hrate|].
  intros i r Hr. apply calculateData_lookup_inv in Hr as [Hi ->].
  change (rate (resultOf (addPhase now s) i))
    with (phaseRate (addPhase now s) (Z.of_nat (S i))).
  apply Hrate. change (durationYears (addPhase now s)) with (durationYears s) in Hi.
  lia.
Qed.

(** X10: removing by identifier.  [removeTransaction] and [removePhase]
    drop every entry with the identifier and keep the others in their
    order.  Removing the identifier of the entry just added gives back the
    state before the addition when no older entry has that identifier, and
    otherwise drops the older entries with it as well. *)
Theorem remove_after_add s (now : Z) :
  (forall id,
     transactions (removeTransaction id s)
     = List.filter (fun t => negb (Transaction.id t =? id)) (transactions s)
     /\ forall t, In t (transactions (removeTransaction id s))
                  <-> In t (transactions s) /\ Transaction.id t <> id)
  /\ (forall id,
        yieldPhases (removePhase id s)
        = List.filter (fun p => negb (YieldPhase.id p =? id)) (yieldPhases s)
        /\ forall p, In p (yieldPhases (removePhase id s))
                     <-> In p (yieldPhases s) /\ YieldPhase.id p <> id)
  /\ removeTransaction now (addTransaction now s) = removeTransaction now s
  /\ removePhase now (addPhase now s) = removePhase now s
  /\ (Forall (fun t => Transaction.id t <> now) (transactions s) ->
      removeTransaction now (addTransaction now s) = s)
  /\ (Forall (fun p => YieldPhase.id p <> now) (yieldPhases s) ->
      removePhase now (addPhase now s) = s).
Proof.
  assert (Ht : removeTransaction now (addTransaction now s)
               = removeTransaction now s).
  { unfold removeTransaction, addTransaction.
    cbn [transactions withTransactions]. unfold withTransactions.
    cbn [initialCapital durationYears reinvestGains yieldPhases].
    rewrite List.filter_app. cbn [List.filter Transaction.id].
    now rewrite Z.eqb_refl, app_nil_r. }
  assert (Hp : removePhase now (addPhase now s) = removePhase now s).
  { unfold removePhase, addPhase.
    cbn [yieldPhases withYieldPhases]. unfold withYieldPhases.
    cbn [initialCapital durationYears reinvestGains transactions].
    rewrite List.filter_app. cbn [List.filter YieldPhase.id].
    now rewrite Z.eqb_refl, app_nil_r. }
  split; [|split; [|split; [exact Ht|split; [exact Hp|split]]]].
  - intros id. split; [reflexivity|]. intros t.
    unfold removeTransaction. cbn [transactions withTransactions].
    rewrite filter_In, negb_true_iff, Z.eqb_neq. reflexivity.
  - intros id. split; [reflexivity|]. intros p.
    unfold removePhase. cbn [yieldPhases withYieldPhases].
    rewrite filter_In, negb_true_iff, Z.eqb_neq. reflexivity.
  - intros Hfresh. rewrite Ht. unfold removeTransaction, withTransactions.
    rewrite filter_all; [now destruct s|].
    apply (Forall_impl _ _ _ Hfresh). intros t Hne.
    now rewrite negb_true_iff, Z.eqb_neq.
  - intros Hfresh. rewrite Hp. unfold removePhase, withYieldPhases.
    rewrite filter_all; [now destruct s|].
    apply (Forall_impl _ _ _ Hfresh). intros p Hne.
    now rewrite negb_true_iff, Z.eqb_neq.
Qed.

End AddRemove.

(** ** More on the tax *)

Section TaxBounds.
Local Open Scope R_scope.
Import ExactTax.
Local Abbreviation Fin := Ideal.Fin.
Local Abbreviation number := Ideal.number.

Lemma taxOn_Fin (finalBalance invested : R) (dur : Z) :
  gains (taxOn (Fin finalBalance) (Fin invested) dur)
  = Fin (Rmax 0 (finalBalance - invested))
  /\ tax (taxOn (Fin finalBalance) (Fin invested) dur)
     = Fin (taxOf (Rmax 0 (finalBalance - invested)))
  /\ afterTax (taxOn (Fin finalBalance) (Fin invested) dur)
     = Fin (finalBalance - taxOf (Rmax 0 (finalBalance - invested))).
Proof.
  assert (Hg : gains (taxOn (Fin finalBalance) (Fin invested) dur)
               = Fin (Rmax 0 (finalBalance - invested))).
  { unfold taxOn. cbn [gains]. now rewrite int_Fin, sub_Fin, max_Fin. }
  assert (Ht : tax (taxOn (Fin finalBalance) (Fin invested) dur)
               = Fin (taxOf (Rmax 0 (finalBalance - invested)))).
  { unfold taxOn, taxOf. cbn [tax].
    rewrite !int_Fin, !num_Fin, !sub_Fin, max_Fin, mul_Fin, sub_Fin, max_Fin,
      mul_Fin, round_Fin.
    replace (1 - Q2R (30 # 100)) with (7 / 10) by (unfold Q2R; cbn; lra).
    replace (Q2R (26375 # 100000)) with (26375 / 100000)
      by (unfold Q2R; cbn; lra).
    reflexivity. }
  split; [exact Hg|]. split; [exact Ht|].
  change (afterTax (taxOn (Fin finalBalance) (Fin invested) dur))
    with (Fin finalBalance - tax (taxOn (Fin finalBalance) (Fin invested) dur))%js.
  now rewrite Ht, sub_Fin.
Qed.

Lemma Int_part_le (x y : R) : x <= y -> (Int_part x <= Int_part y)%Z.
Proof.
  intros Hxy. destruct (base_Int_part x) as [Hx _].
  destruct (base_Int_part y) as [_ Hy].
  apply Z.lt_succ_r. apply lt_IZR. rewrite succ_IZR. lra.
Qed.

Lemma Rmax_0_cases (x : R) :
  (x <= 0 /\ Rmax 0 x = 0) \/ (0 < x /\ Rmax 0 x = x).
Proof.
  unfold Rmax. destruct (Rle_dec 0 x) as [Hle|Hgt].
  - destruct (Req_dec_T x 0) as [->|Hne]; [left; lra|right; lra].
  - left. lra.
Qed.

(** X13: more gains, not less tax.  Of two finite results, the one with
    the larger difference between final balance and total invested has the
    tax that is not smaller. *)
Theorem tax_is_monotone (fb1 ti1 fb2 ti2 : R) (dur1 dur2 : Z) :
  fb1 - ti1 <= fb2 - ti2 ->
  exists t1 t2 : Z,
    tax (taxOn (Fin fb1) (Fin ti1) dur1) = Fin (IZR t1)
    /\ tax (taxOn (Fin fb2) (Fin ti2) dur2) = Fin (IZR t2)
    /\ (t1 <= t2)%Z.
Proof.
  intros Hle.
  destruct (taxOn_Fin fb1 ti1 dur1) as (_ & Ht1 & _).
  destruct (taxOn_Fin fb2 ti2 dur2) as (_ & Ht2 & _).
  eexists _, _. split; [exact Ht1|]. split; [exact Ht2|].
  apply Int_part_le.
  assert (Hmax : Rmax 0 (fb1 - ti1) <= Rmax 0 (fb2 - ti2)).
  { destruct (Rmax_0_cases (fb1 - ti1)) as [[? ->]|[? ->]];
      destruct (Rmax_0_cases (fb2 - ti2)) as [[? ->]|[? ->]]; lra. }
  assert (Hmax' : Rmax 0 (Rmax 0 (fb1 - ti1) * (7 / 10) - 1000)
                  <= Rmax 0 (Rmax 0 (fb2 - ti2) * (7 / 10) - 1000)).
  { destruct (Rmax_0_cases (Rmax 0 (fb1 - ti1) * (7 / 10) - 1000)) as [[? ->]|[? ->]];
      destruct (Rmax_0_cases (Rmax 0 (fb2 - ti2) * (7 / 10) - 1000)) as [[? ->]|[? ->]];
      lra. }
  lra.
Qed.

End TaxBounds.

(** ** More on the benchmarks *)

Section BenchmarkSpan.
Context {N : Type} `{JSNumber N}.
Implicit Types (table : gmap Z N) (dur : Z).

(** The first and the last kept element of a stretch of integers. *)
Lemma filter_seqZ_span (f : Z -> bool) (n : nat) :
  forall (m a z : Z),
    head (List.filter f (seqZ m (Z.of_nat n))) = Some a ->
    last (List.filter f (seqZ m (Z.of_nat n))) = Some z ->
    m <= a /\ a <= z /\ z < m + Z.of_nat n
    /\ f a = true /\ f z = true
    /\ Z.of_nat (length (List.filter f (seqZ m (Z.of_nat n)))) <= z - a + 1.
Proof.
  induction n as [|n IH]; intros m a z.
  - change (seqZ m (Z.of_nat 0)) with (@nil Z). discriminate.
  - rewrite Nat2Z.inj_succ, seqZ_cons by lia.
    replace (Z.pred (Z.succ (Z.of_nat n))) with (Z.of_nat n) by lia.
    cbn [List.filter]. destruct (f m) eqn:Hm.
    + cbn [head]. intros [= <-] Hlast.
      destruct (List.filter f (seqZ (Z.succ m) (Z.of_nat n))) as [|a' l] eqn:Hl.
      * cbn in Hlast. injection Hlast as <-. cbn [length]. repeat split; try lia; assumption.
      * rewrite last_cons_cons, <- Hl in Hlast.
        assert (Hhead : head (List.filter f (seqZ (Z.succ m) (Z.of_nat n)))
                        = Some a') by now rewrite Hl.
        destruct (IH (Z.succ m) a' z Hhead Hlast) as (H1 & H2 & H3 & H4 & H5 & H6).
        rewrite Hl in H6. cbn [length] in H6 |- *.
        repeat split; try lia; assumption.
    + intros Hhead Hlast.
      destruct (IH (Z.succ m) a z Hhead Hlast) as (H1 & H2 & H3 & H4 & H5 & H6).
      repeat split; try lia; assumption.
Qed.

(** X16: what a benchmark reports about its years.  The years used never
    outnumber the years asked for; [fromYear] and [toYear] are the first
    and the last year of the window that the table has, they lie in the
    window in this order, and the years used fit between them; [cagr],
    [fromYear] and [toYear] are null exactly when no year of the window is
    in the table. *)
Theorem benchmark_years dur (e : Etf.t N) :
  let b := benchmark dur e in
  (yearsAvailable b <= Z.to_nat dur)%nat
  /\ (0 <= dur -> Z.of_nat (yearsAvailable b) <= yearsRequested b)
  /\ fromYear b = head (presentYears (Etf.returns e) dur)
  /\ toYear b = last (presentYears (Etf.returns e) dur)
  /\ (cagr b = None <-> yearsAvailable b = 0%nat)
  /\ (fromYear b = None <-> yearsAvailable b = 0%nat)
  /\ (toYear b = None <-> yearsAvailable b = 0%nat)
  /\ forall a z : Z,
       fromYear b = Some a -> toYear b = Some z ->
       2025 - dur + 1 <= a /\ a <= z /\ z <= 2025
       /\ is_Some (Etf.returns e !! a) /\ is_Some (Etf.returns e !! z)
       /\ Z.of_nat (yearsAvailable b) <= z - a + 1.
Proof.
  intros b.
  assert (Hb : b = let years := presentYears (Etf.returns e) dur in
                   let cumulative := compound (Etf.returns e) years in
                   {| etf := e;
                      cagr := match cagrOf years cumulative with
                              | Some c => Some (toFixed c 1)
                              | None => None
                              end;
                      totalReturn := toFixed ((cumulative - int 1) * int 100)%js 0;
                      yearsAvailable := length years;
                      yearsRequested := dur;
                      fromYear := if (0 <? length years)%nat
                                  then years !! 0%nat else None;
                      toYear := if (0 <? length years)%nat
                                then last years else None |}).
  { unfold b, benchmark. now rewrite window_spec. }
  set (years := presentYears (Etf.returns e) dur) in *.
  assert (Hfrom : fromYear b = head years).
  { rewrite Hb. cbn [fromYear]. destruct years; reflexivity. }
  assert (Hto : toYear b = last years).
  { rewrite Hb. cbn [toYear]. destruct years; reflexivity. }
  assert (Hn : yearsAvailable b = length years) by now rewrite Hb.
  assert (Hlen : (length years <= Z.to_nat dur)%nat).
  { unfold years, presentYears.
    etransitivity; [apply List.filter_length_le|]. now rewrite length_seqZ. }
  split; [lia|]. split; [rewrite Hb; cbn [yearsAvailable yearsRequested]; lia|].
  split; [exact Hfrom|]. split; [exact Hto|].
  split; [|split; [|split]].
  - rewrite Hb. cbn [cagr yearsAvailable]. unfold cagrOf.
    destruct years; cbn [length Nat.ltb Nat.leb]; split; congruence.
  - rewrite Hfrom, Hn. destruct years; cbn; split; congruence.
  - rewrite Hto, Hn, last_None. destruct years; cbn; split; congruence.
  - intros a z Ha Hz. rewrite Hfrom in Ha. rewrite Hto in Hz. rewrite Hn.
    unfold years, presentYears in *.
    replace (seqZ (2025 - dur + 1) dur)
      with (seqZ (2025 - dur + 1) (Z.of_nat (Z.to_nat dur))) in *
      by (unfold seqZ; now rewrite Nat2Z.id).
    destruct (filter_seqZ_span (present (Etf.returns e)) (Z.to_nat dur)
                (2025 - dur + 1) a z Ha Hz) as (H1 & H2 & H3 & H4 & H5 & H6).
    unfold present in H4, H5.
    repeat split; try lia.
    + destruct (Etf.returns e !! a); [eauto|discriminate].
    + destruct (Etf.returns e !! z); [eauto|discriminate].
Qed.

End BenchmarkSpan.

Section BenchmarkFields.

Lemma benchmark_eq {N} `{JSNumber N} (dur : Z) (e : Etf.t N) :
  benchmark dur e
  = let years := presentYears (Etf.returns e) dur in
    let cumulative := compound (Etf.returns e) years in
    {| etf := e;
       cagr := match cagrOf years cumulative with
               | Some c => Some (toFixed c 1)
               | None => None
               end;
       totalReturn := toFixed ((cumulative - int 1) * int 100)%js 0;
       yearsAvailable := length years;
       yearsRequested := dur;
       fromYear := if (0 <? length years)%nat then years !! 0%nat else None;
       toYear := if (0 <? length years)%nat then last years else None |}.
Proof. unfold benchmark. now rewrite window_spec. Qed.

End BenchmarkFields.

Section ShippedTables.
Context {N : Type} `{JSNumber N}.

(** The integers of a stretch that lie in a range are a stretch. *)
Lemma filter_range_seqZ (lo hi : Z) (n : nat) :
  forall m : Z,
    List.filter (fun y => (lo <=? y) && (y <=? hi)) (seqZ m (Z.of_nat n))
    = seqZ (Z.max lo m)
        (Z.max 0 (Z.min hi (m + Z.of_nat n - 1) - Z.max lo m + 1)).
Proof.
  induction n as [|n IH]; intros m.
  - change (seqZ m (Z.of_nat 0)) with (@nil Z). cbn [List.filter].
    symmetry. apply seqZ_nil. lia.
  - rewrite Nat2Z.inj_succ, (seqZ_cons m) by lia.
    replace (Z.pred (Z.succ (Z.of_nat n))) with (Z.of_nat n) by lia.
    cbn [List.filter]. rewrite IH.
    destruct (Z.leb_spec lo m) as [Hlo|Hlo];
      destruct (Z.leb_spec m hi) as [Hhi|Hhi]; cbn [andb].
    + rewrite (seqZ_cons (Z.max lo m)) by lia. f_equal; [lia|].
      f_equal; lia.
    + rewrite !seqZ_nil by lia. reflexivity.
    + f_equal; lia.
    + destruct (Z.le_gt_cases (Z.min hi (Z.succ m + Z.of_nat n - 1)
                               - Z.max lo (Z.succ m) + 1) 0).
      * rewrite !seqZ_nil by lia. reflexivity.
      * f_equal; lia.
Qed.

Lemma present_range (kvs : list (Z * N)) (first len : Z) (y : Z) :
  kvs.*1 = seqZ first len ->
  present (list_to_map kvs) y = (first <=? y) && (y <=? first + len - 1).
Proof.
  intros Hkeys. unfold present.
  destruct (list_to_map kvs !! y) as [v|] eqn:Hy.
  - assert (Hin : y ∈ kvs.*1).
    { destruct (decide (y ∈ kvs.*1)) as [Hin|Hout]; [exact Hin|].
      apply (not_elem_of_list_to_map_1 (M:=gmap Z)) in Hout. congruence. }
    rewrite Hkeys, elem_of_seqZ in Hin. symmetry.
    apply andb_true_iff. rewrite !Z.leb_le. lia.
  - apply (not_elem_of_list_to_map_2 (M:=gmap Z)) in Hy.
    rewrite Hkeys, elem_of_seqZ in Hy. symmetry.
    apply andb_false_iff. rewrite !Z.leb_gt. lia.
Qed.

Lemma presentYears_range (kvs : list (Z * N)) (first len dur : Z) :
  kvs.*1 = seqZ first len -> first + len - 1 = 2025 -> 0 <= len ->
  0 <= dur ->
  presentYears (list_to_map kvs) dur
  = seqZ (Z.max first (2026 - dur)) (Z.min dur len).
Proof.
  intros Hkeys Hlast Hlen Hdur. unfold presentYears.
  rewrite (List.filter_ext _ (fun y => (first <=? y) && (y <=? 2025))).
  - replace (seqZ (2025 - dur + 1) dur)
      with (seqZ (2025 - dur + 1) (Z.of_nat (Z.to_nat dur)))
      by (unfold seqZ; now rewrite Nat2Z.id).
    rewrite filter_range_seqZ. f_equal; lia.
  - intros y. rewrite (present_range kvs first len y Hkeys). now rewrite Hlast.
Qed.

Lemma head_seqZ (m n : Z) : 0 < n -> head (seqZ m n) = Some m.
Proof. intros Hn. now rewrite seqZ_cons by lia. Qed.

Lemma last_seqZ (m n : Z) : 0 < n -> last (seqZ m n) = Some (m + n - 1).
Proof.
  intros Hn. replace n with (Z.of_nat (S (Z.to_nat (n - 1)))) by lia.
  rewrite seqZ_S, last_snoc. f_equal. lia.
Qed.

(** What [benchmark] reports for a table whose years are the stretch
    [first .. 2025]. *)
Lemma benchmark_stretch (e : Etf.t N) (kvs : list (Z * N))
    (first len dur : Z) :
  Etf.returns e = list_to_map kvs ->
  kvs.*1 = seqZ first len -> first + len - 1 = 2025 -> 0 < len -> 1 <= dur ->
  cagr (benchmark dur e) <> None
  /\ yearsAvailable (benchmark dur e) = Z.to_nat (Z.min dur len)
  /\ fromYear (benchmark dur e) = Some (Z.max first (2026 - dur))
  /\ toYear (benchmark dur e) = Some 2025.
Proof.
  intros He Hkeys Hlast Hlen Hdur. rewrite benchmark_eq. cbn zeta.
  cbn [cagr yearsAvailable fromYear toYear]. rewrite He.
  rewrite (presentYears_range kvs first len dur Hkeys Hlast) by lia.
  rewrite length_seqZ.
  assert (Hpos : (0 <? Z.to_nat (Z.min dur len))%nat = true)
    by (apply Nat.ltb_lt; lia).
  rewrite Hpos. unfold cagrOf. rewrite length_seqZ, Hpos.
  split; [discriminate|]. split; [reflexivity|]. split.
  - rewrite <- head_lookup. apply head_seqZ. lia.
  - rewrite last_seqZ by lia. f_equal. lia.
Qed.

(** X18: the three indices that are shipped.  Their tables hold the years
    2003-2025, 2006-2025 and 2012-2025 without a gap.  For every duration
    of at least a year each of them therefore has data ([cagr] is not
    null), its last year is 2025, its first year is the later of the first
    year of its table and the first year of the window, and the years used
    are the duration, capped at 23, 20 and 14. *)
Theorem shipped_benchmarks (s : State N) :
  1 <= durationYears s ->
  Forall (fun b => cagr b <> None /\ toYear b = Some 2025) (etfBenchmarks s)
  /\ map yearsAvailable (etfBenchmarks s)
     = [ Z.to_nat (Z.min (durationYears s) 23);
         Z.to_nat (Z.min (durationYears s) 20);
         Z.to_nat (Z.min (durationYears s) 14) ]
  /\ map fromYear (etfBenchmarks s)
     = [ Some (Z.max 2003 (2026 - durationYears s));
         Some (Z.max 2006 (2026 - durationYears s));
         Some (Z.max 2012 (2026 - durationYears s)) ]
  /\ map yearsRequested (etfBenchmarks s)
     = [ durationYears s; durationYears s; durationYears s ].
Proof.
  intros Hdur. unfold etfBenchmarks, etfData. cbn zeta. cbn [map].
  match goal with
  | |- context [ [benchmark _ ?e1; benchmark _ ?e2; benchmark _ ?e3] ] =>
      destruct (benchmark_stretch e1 _ 2003 23 (durationYears s) eq_refl eq_refl
                  eq_refl eq_refl Hdur) as (A1 & B1 & C1 & D1);
      destruct (benchmark_stretch e2 _ 2006 20 (durationYears s) eq_refl eq_refl
                  eq_refl eq_refl Hdur) as (A2 & B2 & C2 & D2);
      destruct (benchmark_stretch e3 _ 2012 14 (durationYears s) eq_refl eq_refl
                  eq_refl eq_refl Hdur) as (A3 & B3 & C3 & D3)
  end.
  split; [|split; [|split]].
  - repeat constructor; assumption.
  - now rewrite B1, B2, B3.
  - now rewrite C1, C2, C3.
  - now rewrite !benchmark_eq.
Qed.

End ShippedTables.

(** ** How often a transaction is applied and counted *)

Section Applications.
Context {N : Type} `{JSNumber N}.
Implicit Types (s : State N) (t : Transaction.t N) (y dur month : Z).

Lemma length_flat_map_if {A B} (f : A -> bool) (c : list B) (l : list A) :
  length (flat_map (fun x => if f x then c else []) l)
  = (length c * length (List.filter f l))%nat.
Proof.
  induction l as [|x l IH]; cbn [flat_map List.filter length]; [lia|].
  rewrite length_app, IH. destruct (f x); cbn [length]; lia.
Qed.

(** The years of [1..dur] that lie in [lo..hi], counted. *)
Lemma years_in_range (lo hi dur : Z) :
  Z.of_nat (length (List.filter (fun y => (y >=? lo) && (y <=? hi))
                      (seqZ 1 dur)))
  = Z.max 0 (Z.min dur hi - Z.max 1 lo + 1).
Proof.
  destruct (Z.le_gt_cases 0 dur) as [Hdur|Hdur].
  - rewrite (filter_ext _ (fun y => (lo <=? y) && (y <=? hi)))
      by (intros y; now rewrite Z.geb_leb).
    rewrite <- (Z2Nat.id dur) at 1 by exact Hdur.
    rewrite filter_range_seqZ, length_seqZ. rewrite !Z2Nat.id by lia. lia.
  - rewrite seqZ_nil by lia. cbn [List.filter length]. lia.
Qed.

Lemma timesApplied_applications dur t :
  timesApplied dur t = applications dur t.
Proof.
  unfold timesApplied, applications.
  destruct (isMonthly t) eqn:Hm.
  - rewrite (flat_map_ext _
               (fun y => if (y >=? Transaction.startYear t)
                            && (y <=? effectiveEnd dur t)
                         then months else [])).
    + rewrite length_flat_map_if, Nat2Z.inj_mul, years_in_range.
      reflexivity.
    + intros y. rewrite monthsApplied_monthly by now apply isMonthly_spec.
      unfold isActive. now rewrite Hm.
  - destruct (isOnce t) eqn:Ho.
    + rewrite (flat_map_ext _
                 (fun y => if (y >=? Transaction.startYear t)
                              && (y <=? Transaction.startYear t)
                           then [1] else [])).
      * rewrite length_flat_map_if, Nat2Z.inj_mul, years_in_range.
        cbn [length].
        destruct (Z.leb_spec 1 (Transaction.startYear t));
          destruct (Z.leb_spec (Transaction.startYear t) dur);
          cbn [andb]; lia.
      * intros y. rewrite monthsApplied_once by now apply isOnce_spec.
        unfold isActive. now rewrite Hm.
    + rewrite (flat_map_ext _ (fun _ => [])).
      * now induction (seqZ 1 dur).
      * intros y. unfold monthsApplied.
        rewrite (filter_ext _ (fun _ => false)).
        -- now induction months.
        -- intros m. unfold applies. rewrite Hm, Ho. cbn [orb andb].
           apply andb_false_r.
Qed.

(** X1: how often the simulation applies a transaction.  Over the years
    [1..dur] and their twelve months the month loop adds the amount of a
    transaction to balance and deposits in exactly [applications dur t]
    months: twelve for each year of the horizon in which a monthly
    transaction is active, one for a one-time transaction whose year is in
    the horizon, none for a transaction of another type. *)
Theorem simulated_months dur t :
  timesApplied dur t = applications dur t
  /\ (forall y month,
        In month (monthsApplied dur y t)
        <-> In month months /\ applies dur y month t = true)
  /\ (forall y month bal dep,
        applyTransaction dur y month (bal, dep) t
        = if applies dur y month t
          then ((bal + Transaction.amount t)%js,
                (dep + Transaction.amount t)%js)
          else (bal, dep))
  /\ (Transaction.type t = "monthly" ->
      applications dur t
      = 12 * Z.max 0 (Z.min dur (effectiveEnd dur t)
                      - Z.max 1 (Transaction.startYear t) + 1))
  /\ (Transaction.type t = "once" ->
      applications dur t
      = if (1 <=? Transaction.startYear t) && (Transaction.startYear t <=? dur)
        then 1 else 0)
  /\ (Transaction.type t <> "monthly" -> Transaction.type t <> "once" ->
      applications dur t = 0).
Proof.
  split; [apply timesApplied_applications|].
  split; [|split; [|split; [|split]]].
  - intros y month. unfold monthsApplied. apply filter_In.
  - intros y month bal dep. apply applyTransaction_applies.
  - intros Hty. unfold applications.
    now rewrite (proj2 (isMonthly_spec t) Hty).
  - intros Hty. unfold applications.
    now rewrite (once_not_monthly t Hty), (proj2 (isOnce_spec t) Hty).
  - intros Hm Ho. unfold applications.
    rewrite <- isMonthly_spec in Hm. rewrite <- isOnce_spec in Ho.
    destruct (isMonthly t); [congruence|]. now destruct (isOnce t).
Qed.

End Applications.

Section CountedAndApplied.
Context {N : Type} `{JSNumber N}.
Implicit Types (s : State N) (t : Transaction.t N) (y dur month : Z).

(** X2: inside the horizon [totalInvested] counts what the simulation
    applies.  For a monthly transaction that starts in year 1 or later and
    whose effective end is at most [dur] (an empty period that ends the
    year before it starts included), and for a one-time transaction whose
    year is in [1..dur], the factor by which [totalInvested] multiplies the
    amount is the number of months in which the simulation adds it. *)
Theorem totalInvested_counts_applications dur t :
  (Transaction.type t = "monthly"
   /\ 1 <= Transaction.startYear t
   /\ Transaction.startYear t <= effectiveEnd dur t + 1
   /\ effectiveEnd dur t <= dur)
  \/ (Transaction.type t = "once" /\ 1 <= Transaction.startYear t <= dur) ->
  occurrences dur t = timesApplied dur t
  /\ forall acc : N,
       investedStep dur acc t
       = (acc + Transaction.amount t * int (timesApplied dur t))%js.
Proof.
  intros Hin.
  assert (Hocc : occurrences dur t = timesApplied dur t).
  { rewrite timesApplied_applications. unfold occurrences, applications.
    destruct Hin as [(Hty & H1 & H2 & H3)|(Hty & H1)].
    - rewrite (proj2 (isMonthly_spec t) Hty). lia.
    - rewrite (once_not_monthly t Hty), (proj2 (isOnce_spec t) Hty).
      destruct (Z.leb_spec 1 (Transaction.startYear t));
        destruct (Z.leb_spec (Transaction.startYear t) dur);
        cbn [andb]; lia. }
  split; [exact Hocc|]. intros acc. unfold investedStep. now rewrite Hocc.
Qed.

(** X3: beyond the horizon [totalInvested] counts months that the
    simulation never applies.  For a custom monthly transaction that
    starts in the horizon and ends after it these are the twelve months of
    every year after [dur]; for a monthly transaction that starts before
    year 1 the twelve months of every year before year 1; a one-time
    transaction whose year is outside [1..dur], and a transaction of
    another type, are counted once and applied never. *)
Theorem totalInvested_counts_beyond_horizon dur t :
  (forall acc : N,
     investedStep dur acc t
     = (acc + Transaction.amount t * int (occurrences dur t))%js)
  /\ (Transaction.type t = "monthly" ->
      Transaction.customDuration t = true ->
      1 <= Transaction.startYear t <= dur -> dur <= Transaction.endYear t ->
      occurrences dur t - timesApplied dur t
      = 12 * (Transaction.endYear t - dur))
  /\ (Transaction.type t = "monthly" ->
      Transaction.startYear t <= 1 -> 0 <= effectiveEnd dur t <= dur ->
      occurrences dur t - timesApplied dur t
      = 12 * (1 - Transaction.startYear t))
  /\ (Transaction.type t = "once" ->
      ~ 1 <= Transaction.startYear t <= dur ->
      occurrences dur t = 1 /\ timesApplied dur t = 0)
  /\ (Transaction.type t <> "monthly" -> Transaction.type t <> "once" ->
      occurrences dur t = 1 /\ timesApplied dur t = 0).
Proof.
  rewrite timesApplied_applications. unfold occurrences, applications.
  split; [reflexivity|]. split; [|split; [|split]].
  - intros Hty Hc Hs He. unfold effectiveEnd.
    rewrite (proj2 (isMonthly_spec t) Hty), Hc. cbn [negb andb]. lia.
  - intros Hty Hs He. rewrite (proj2 (isMonthly_spec t) Hty). lia.
  - intros Hty Hout.
    rewrite (once_not_monthly t Hty), (proj2 (isOnce_spec t) Hty).
    split; [reflexivity|].
    destruct (Z.leb_spec 1 (Transaction.startYear t));
      destruct (Z.leb_spec (Transaction.startYear t) dur);
      cbn [andb]; lia.
  - intros Hm Ho. rewrite <- isMonthly_spec in Hm. rewrite <- isOnce_spec in Ho.
    destruct (isMonthly t); [congruence|]. now destruct (isOnce t).
Qed.

(** X11: what an added transaction adds.  [addTransaction] appends a
    monthly transaction of 500 without a custom period and keeps the rest
    of the plan.  In every month of every year of the horizon the
    simulation then adds 500 to the balance and to the deposits, after the
    amounts of the older transactions, and [totalInvested] adds
    [500 * (durationYears * 12)] after the older transactions: it counts
    the new transaction as often as the simulation applies it. *)
Theorem addTransaction_adds_500_a_month s (now : Z) :
  let t := Transaction.mk now "Extra Deposit" (int 500) "monthly" 1
             (durationYears s) false in
  addTransaction now s
  = {| initialCapital := initialCapital s;
       durationYears := durationYears s;
       reinvestGains := reinvestGains s;
       yieldPhases := yieldPhases s;
       transactions := transactions s ++ [t] |}
  /\ (forall y month (bal : N),
        1 <= y <= durationYears s ->
        principalMonth (addTransaction now s) y bal month
        = (principalMonth s y bal month + int 500)%js)
  /\ (forall y month (bal : N),
        ~ 1 <= y <= durationYears s ->
        principalMonth (addTransaction now s) y bal month
        = principalMonth s y bal month)
  /\ totalInvested (addTransaction now s)
     = (initialCapital s
        + (fold_left (investedStep (durationYears s)) (transactions s) (int 0)
           + int 500 * int (durationYears s * 12)))%js
  /\ (0 <= durationYears s ->
      occurrences (durationYears s) t = timesApplied (durationYears s) t
      /\ timesApplied (durationYears s) t = 12 * durationYears s).
Proof.
  intros t.
  assert (Happ : forall y month,
            applies (durationYears s) y month t
            = (y >=? 1) && (y <=? durationYears s)).
  { intros y month. unfold applies, isActive, effectiveEnd, isMonthly, t.
    cbn [Transaction.type Transaction.customDuration Transaction.startYear
         Transaction.endYear negb andb].
    rewrite String.eqb_refl. cbn [negb andb orb]. apply andb_true_r. }
  split; [reflexivity|]. split; [|split; [|split]].
  - intros y month bal Hy. unfold principalMonth, addTransaction.
    cbn [transactions durationYears withTransactions]. rewrite fold_left_app. cbn [fold_left].
    fold t. rewrite Happ.
    rewrite (proj2 (Z.geb_le y 1)), (proj2 (Z.leb_le y (durationYears s)))
      by lia.
    reflexivity.
  - intros y month bal Hy. unfold principalMonth, addTransaction.
    cbn [transactions durationYears withTransactions]. rewrite fold_left_app. cbn [fold_left].
    fold t. rewrite Happ.
    destruct (Z.geb_spec y 1); destruct (Z.leb_spec y (durationYears s));
      cbn [andb]; try reflexivity. lia.
  - unfold totalInvested, addTransaction.
    cbn [transactions durationYears initialCapital withTransactions].
    rewrite fold_left_app. cbn [fold_left]. fold t.
    unfold investedStep at 1. f_equal. f_equal. f_equal. f_equal.
    unfold occurrences, effectiveEnd, isMonthly, t.
    cbn [Transaction.type Transaction.customDuration Transaction.startYear
         Transaction.endYear negb andb].
    rewrite String.eqb_refl. cbn [negb andb]. lia.
  - intros Hdur. rewrite timesApplied_applications.
    unfold occurrences, applications, effectiveEnd, isMonthly, t.
    cbn [Transaction.type Transaction.customDuration Transaction.startYear
         Transaction.endYear negb andb].
    rewrite String.eqb_refl. cbn [negb andb]. lia.
Qed.

End CountedAndApplied.

Section Stored.
Context {N : Type} `{JSNumber N}.
Implicit Types (s : State N) (t : StoredTransaction.t N)
  (p : StoredPhase.t N) (snap : Snapshot.t N).

Lemma map_fixed {A} (f : A -> A) (l : list A) :
  (forall x, In x l -> f x = x) -> map f l = l.
Proof.
  induction l as [|a l IH]; intros Hf; [reflexivity|].
  cbn [map]. rewrite (Hf a) by now left.
  rewrite IH; [reflexivity|]. intros x Hx. apply Hf. now right.
Qed.

Lemma map_fixed_inv {A} (f : A -> A) (l : list A) (x : A) :
  map f l = l -> In x l -> f x = x.
Proof.
  induction l as [|a l IH]; intros Hmap Hx; [destruct Hx|].
  cbn [map] in Hmap. destruct Hx as [<-|Hx].
  - congruence.
  - apply IH; [congruence|exact Hx].
Qed.

(** X19: what is saved comes back.  Loading the data object that
    [saveToLocal] builds from a state gives that state again, whatever the
    state it is loaded into: the defaults and the migration of
    [loadFromLocal] leave data of the current format alone. *)
Theorem load_restores_saved s s0 :
  loadFromLocal (Some (savedData s)) s0 = s.
Proof.
  destruct s as [ic dur re ps ts].
  unfold loadFromLocal, savedData.
  cbn [Snapshot.initialCapital Snapshot.durationYears Snapshot.reinvestGains
       Snapshot.yieldPhases Snapshot.transactions
       initialCapital durationYears reinvestGains yieldPhases transactions].
  rewrite !List.map_map. f_equal.
  - apply map_fixed. intros [i a b r c] _. reflexivity.
  - apply map_fixed. intros [i n a ty st e c] _. reflexivity.
Qed.

(** X20: the migration of the old format.  A stored transaction that has a
    [duration] and no [endYear] is loaded as a transaction with a custom
    period that ends [duration - 1] years after its start year, whatever
    [customDuration] was stored.  If it is monthly it is then applied
    exactly in the years from its start year to that end year, whatever the
    duration of the plan, and [totalInvested] counts it [12 * duration]
    times; a loaded transaction of another type does not use the period. *)
Theorem old_format_is_migrated
    (id : Z) (name : string) (amount : N) (type : string)
    (startYear duration : Z) (custom : option bool) :
  let t' := loadTransaction
              (StoredTransaction.mk id name amount type startYear
                 (StoredTransaction.Duration duration) custom) in
  t' = Transaction.mk id name amount type startYear
         (startYear + duration - 1) true
  /\ (type = "monthly" ->
      forall dur : Z,
        (forall y : Z,
           isActive dur y t' = true
           <-> startYear <= y <= startYear + duration - 1)
        /\ occurrences dur t' = 12 * duration)
  /\ (type <> "monthly" ->
      forall dur : Z,
        (forall y : Z, isActive dur y t' = true <-> y = startYear)
        /\ occurrences dur t' = 1).
Proof.
  cbn zeta. unfold loadTransaction.
  cbn [StoredTransaction.extent StoredTransaction.id StoredTransaction.name
       StoredTransaction.amount StoredTransaction.type
       StoredTransaction.startYear].
  split; [reflexivity|]. split.
  - intros -> dur. split.
    + intros y. unfold isActive, effectiveEnd, isMonthly.
      cbn [Transaction.type Transaction.customDuration Transaction.startYear
           Transaction.endYear negb andb].
      rewrite String.eqb_refl. cbn [negb andb].
      rewrite andb_true_iff, Z.geb_le, Z.leb_le. lia.
    + unfold occurrences, effectiveEnd, isMonthly.
      cbn [Transaction.type Transaction.customDuration Transaction.startYear
           Transaction.endYear negb andb].
      rewrite String.eqb_refl. cbn [negb andb]. lia.
  - intros Hty dur.
    assert (Hm : (type =? "monthly")%string = false)
      by now apply String.eqb_neq.
    split.
    + intros y. unfold isActive, effectiveEnd, isMonthly.
      cbn [Transaction.type Transaction.customDuration Transaction.startYear
           Transaction.endYear].
      rewrite Hm. rewrite andb_true_iff, Z.geb_le, Z.leb_le. lia.
    + unfold occurrences, isMonthly. cbn [Transaction.type]. now rewrite Hm.
Qed.

(** X21: reloading a plan longer than 15 years.  On mount the stored plan
    is loaded into the initial state, whose duration is 15, and the watcher
    of the duration then sees it grow from 15 to the stored duration.  So
    when the stored duration is above 15, every stored phase with a custom
    period that ends in year 15 comes back ending in the last year of the
    plan, and so does every stored monthly transaction with a custom period
    that ends in year 15: a state with such a phase or transaction is not
    restored by saving and mounting. *)
Theorem mounted_extends_year_15 snap :
  15 < Snapshot.durationYears snap ->
  let D := Snapshot.durationYears snap in
  (forall p, In p (Snapshot.yieldPhases snap) ->
     StoredPhase.customDuration p = Some true ->
     StoredPhase.endYear p = 15 ->
     In (YieldPhase.mk (StoredPhase.id p) (StoredPhase.startYear p) D
           (StoredPhase.rate p) true)
        (yieldPhases (mounted (Some snap))))
  /\ (forall t (d : option Z), In t (Snapshot.transactions snap) ->
        StoredTransaction.type t = "monthly" ->
        StoredTransaction.customDuration t = Some true ->
        StoredTransaction.extent t = StoredTransaction.EndYear 15 d ->
        In (Transaction.mk (StoredTransaction.id t) (StoredTransaction.name t)
              (StoredTransaction.amount t) "monthly"
              (StoredTransaction.startYear t) D true)
           (transactions (mounted (Some snap))))
  /\ (forall s, savedData s = snap ->
        (exists q, In q (yieldPhases s)
                   /\ YieldPhase.customDuration q = true
                   /\ YieldPhase.endYear q = 15)
        \/ (exists u, In u (transactions s)
                      /\ Transaction.type u = "monthly"
                      /\ Transaction.customDuration u = true
                      /\ Transaction.endYear u = 15) ->
        mounted (Some snap) <> s).
Proof.
  intros HD D.
  assert (Hgt : (D >? 15) = true) by (apply Z.gtb_lt; unfold D; lia).
  assert (Hm : mounted (Some snap)
               = {| initialCapital := Snapshot.initialCapital snap;
                    durationYears := D;
                    reinvestGains := match Snapshot.reinvestGains snap with
                                     | Some b => b
                                     | None => true
                                     end;
                    yieldPhases :=
                      map (extendPhase D 15)
                        (map loadPhase (Snapshot.yieldPhases snap));
                    transactions :=
                      map (extendTransaction D 15)
                        (map loadTransaction (Snapshot.transactions snap)) |}).
  { unfold mounted, loadFromLocal, onDurationChange.
    cbn [durationYears defaultState yieldPhases transactions initialCapital
         reinvestGains].
    fold D. rewrite Hgt. reflexivity. }
  assert (Hphase : forall p,
            StoredPhase.customDuration p = Some true ->
            StoredPhase.endYear p = 15 ->
            extendPhase D 15 (loadPhase p)
            = YieldPhase.mk (StoredPhase.id p) (StoredPhase.startYear p) D
                (StoredPhase.rate p) true).
  { intros p Hc He. unfold extendPhase, loadPhase.
    cbn [YieldPhase.customDuration YieldPhase.endYear YieldPhase.id
         YieldPhase.startYear YieldPhase.rate].
    rewrite Hc, He. reflexivity. }
  assert (Htrans : forall t d,
            StoredTransaction.type t = "monthly" ->
            StoredTransaction.customDuration t = Some true ->
            StoredTransaction.extent t = StoredTransaction.EndYear 15 d ->
            extendTransaction D 15 (loadTransaction t)
            = Transaction.mk (StoredTransaction.id t)
                (StoredTransaction.name t) (StoredTransaction.amount t)
                "monthly" (StoredTransaction.startYear t) D true).
  { intros t d Hty Hc He. unfold extendTransaction, loadTransaction, isMonthly.
    rewrite He, Hc.
    cbn [Transaction.customDuration Transaction.endYear Transaction.id
         Transaction.startYear Transaction.amount Transaction.name
         Transaction.type].
    rewrite Hty. reflexivity. }
  split; [|split].
  - intros p Hp Hc He. rewrite Hm. cbn [yieldPhases].
    rewrite <- (Hphase p Hc He).
    apply in_map. apply in_map. exact Hp.
  - intros t d Ht Hty Hc He. rewrite Hm. cbn [transactions].
    rewrite <- (Htrans t d Hty Hc He).
    apply in_map. apply in_map. exact Ht.
  - intros s Hs Hex Heq. rewrite Hm in Heq. subst snap.
    destruct s as [ic dur re ps ts].
    unfold savedData in Heq, D, HD.
    cbn [Snapshot.initialCapital Snapshot.durationYears Snapshot.reinvestGains
         Snapshot.yieldPhases Snapshot.transactions
         initialCapital durationYears reinvestGains yieldPhases transactions]
      in Heq, HD, Hex |- *.
    assert (Hps : map (extendPhase dur 15) ps = ps).
    { assert (Hq := f_equal yieldPhases Heq). cbn [yieldPhases] in Hq.
      rewrite (List.map_map _ loadPhase) in Hq.
      rewrite (map_fixed (fun x => loadPhase _) ps) in Hq; [exact Hq|].
      intros [i a b r c] _. reflexivity. }
    assert (Hts : map (extendTransaction dur 15) ts = ts).
    { assert (Hq := f_equal transactions Heq). cbn [transactions] in Hq.
      rewrite (List.map_map _ loadTransaction) in Hq.
      rewrite (map_fixed (fun x => loadTransaction _) ts) in Hq; [exact Hq|].
      intros [i n a ty st e c] _. reflexivity. }
    destruct Hex as [(q & Hq & Hc & He)|(u & Hu & Hty & Hc & He)].
    + pose proof (map_fixed_inv _ ps q Hps Hq) as Hfix.
      unfold extendPhase in Hfix. rewrite Hc, He in Hfix.
      cbn [negb] in Hfix. rewrite Z.eqb_refl in Hfix.
      apply (f_equal YieldPhase.endYear) in Hfix.
      cbn [YieldPhase.endYear] in Hfix. lia.
    + pose proof (map_fixed_inv _ ts u Hts Hu) as Hfix.
      unfold extendTransaction, isMonthly in Hfix.
      rewrite Hty, Hc, He in Hfix.
      cbn [negb andb] in Hfix.
      apply (f_equal Transaction.endYear) in Hfix.
      revert Hfix. rewrite String.eqb_refl. cbn [negb andb].
      rewrite Z.eqb_refl. cbn [Transaction.endYear]. lia.
Qed.

End Stored.

(** ** The properties on the sample plans *)

Section MoreSamples.
Local Open Scope R_scope.
Import ExactTax.
Local Abbreviation Fin := Ideal.Fin.
Local Abbreviation number := Ideal.number.

Lemma duration_change_keeps_earlier_years_witness :
  (Z.of_nat 3 < 20)%Z
  /\ (Z.of_nat 3 < durationYears (defaultState (N:=number)))%Z
  /\ calculateData (setDurationYears 20 (defaultState (N:=number))) !! 3%nat
     = calculateData defaultState !! 3%nat.
Proof.
  assert (H1 : (Z.of_nat 3 < 20)%Z) by lia.
  assert (H2 : (Z.of_nat 3 < durationYears (defaultState (N:=number)))%Z)
    by (cbn; lia).
  split; [exact H1|]. split; [exact H2|].
  refine (duration_change_keeps_earlier_years defaultState 20 3 H1 H2 _).
  intros _. constructor; [|constructor]. intros _. cbn. lia.
Defined.

Lemma tax_is_monotone_witness :
  40000 - 30000 <= 50000 - 30000
  /\ exists t1 t2 : Z,
       tax (taxOn (Fin 40000) (Fin 30000) 15) = Fin (IZR t1)
       /\ tax (taxOn (Fin 50000) (Fin 30000) 15) = Fin (IZR t2)
       /\ (t1 <= t2)%Z.
Proof.
  assert (Hle : 40000 - 30000 <= 50000 - 30000) by lra.
  split; [exact Hle|].
  exact (tax_is_monotone 40000 30000 50000 30000 15 15 Hle).
Defined.

Lemma shipped_benchmarks_witness :
  (1 <= durationYears (defaultState (N:=number)))%Z
  /\ map yearsAvailable (etfBenchmarks (defaultState (N:=number)))
     = [ Z.to_nat (Z.min (durationYears (defaultState (N:=number))) 23);
         Z.to_nat (Z.min (durationYears (defaultState (N:=number))) 20);
         Z.to_nat (Z.min (durationYears (defaultState (N:=number))) 14) ].
Proof.
  assert (H1 : (1 <= durationYears (defaultState (N:=number)))%Z)
    by (cbn; lia).
  split; [exact H1|].
  exact (proj1 (proj2 (shipped_benchmarks defaultState H1))).
Defined.

Lemma mounted_extends_year_15_witness :
  (15 < Snapshot.durationYears (savedData (twoPhaseState (N:=number))))%Z
  /\ mounted (Some (savedData (twoPhaseState (N:=number)))) <> twoPhaseState.
Proof.
  assert (HD : (15 < Snapshot.durationYears
                       (savedData (twoPhaseState (N:=number))))%Z)
    by (cbn; lia).
  split; [exact HD|].
  refine (proj2 (proj2 (mounted_extends_year_15
                          (savedData (twoPhaseState (N:=number))) HD))
            twoPhaseState eq_refl _).
  left. exists (YieldPhase.mk 1 1 15 (int 6) true).
  split; [now left|]. split; reflexivity.
Defined.

Lemma totalInvested_counts_applications_witness :
  Transaction.type (savingsPlan (N:=number)) = "monthly"
  /\ occurrences 15 (savingsPlan (N:=number))
     = timesApplied 15 (savingsPlan (N:=number)).
Proof.
  split; [reflexivity|].
  refine (proj1 (totalInvested_counts_applications 15 savingsPlan _)).
  left. split; [reflexivity|]. cbn. lia.
Defined.

Lemma totalInvested_counts_beyond_horizon_witness :
  (1 <= Transaction.startYear (longPlan (N:=number)) <= 15)%Z
  /\ (15 <= Transaction.endYear (longPlan (N:=number)))%Z
  /\ (occurrences 15 (longPlan (N:=number))
      - timesApplied 15 (longPlan (N:=number))
      = 12 * (Transaction.endYear (longPlan (N:=number)) - 15))%Z.
Proof.
  assert (H1 : (1 <= Transaction.startYear (longPlan (N:=number)) <= 15)%Z)
    by (cbn; lia).
  assert (H2 : (15 <= Transaction.endYear (longPlan (N:=number)))%Z)
    by (cbn; lia).
  split; [exact H1|]. split; [exact H2|].
  exact (proj1 (proj2 (totalInvested_counts_beyond_horizon 15 longPlan))
           eq_refl eq_refl H1 H2).
Defined.

End MoreSamples.
